(** * data_prep_utils/dataset.py: table-backed datasets and the loader chain

    A shallow embedding of [ImageWithPandas], [ImageBboxWithPandas] and
    [DataLoaderChain], and the properties of the written specification
    checked against it.

    Conventions of the embedding:
    - a Python [str] is a [string] (its UTF-8 bytes: byte-wise comparison
      is code-point comparison);
    - a raised exception is the [Raise] branch of [result];
    - a [pandas.DataFrame] is the list of its rows, in row order, reduced to
      the columns the classes read ([label_id], [label_target] and the four
      [label_bbox] columns);
    - a [dict] is a [gmap];
    - the numpy dtype of the box array is a type class, with the two
      instances pandas produces for numeric columns ([int64], [float64]);
      a table with integer and float box columns is the float table that
      [.values] makes of it;
    - the loader and the transform are arguments, of which nothing is
      assumed in the definitions;
    - a source of the loader chain is its declared length and the finite
      list of items one pass over it produces; the draws of
      [random.randrange] come from an arbitrary sequence of natural
      numbers; the generator is run for a number of turns, and the
      theorems show how many suffice. *)

From Stdlib Require Import ZArith Floats.
From stdpp Require Import gmap strings list sorting.

Open Scope Z_scope.
#[local] Set Warnings "-clear-no-such-hyp".

(** ** Exceptions *)

Inductive PyError : Type :=
  | AssertionError
  | AttributeError
  | TypeError
  | ValueError
  | KeyError
  | IndexError
  | OSError
  | RuntimeError
  | NotImplementedError.

Global Instance PyError_eq_dec : EqDecision PyError.
Proof. solve_decision. Defined.

Inductive result (A : Type) : Type :=
  | Ok (a : A)
  | Raise (e : PyError).
Global Arguments Ok {A} a.
Global Arguments Raise {A} e.

Global Instance result_ret : MRet result := λ A a, Ok a.
Global Instance result_bind : MBind result := λ A B k m,
  match m with
  | Ok a => k a
  | Raise e => Raise e
  end.

(** [series.map(f)] / a list comprehension: the first exception wins. *)
Fixpoint mapM {A B} (f : A → result B) (l : list A) : result (list B) :=
  match l with
  | [] => Ok []
  | x :: l' => y ← f x; ys ← mapM f l'; Ok (y :: ys)
  end.

(** Which exceptions an [except ValueError] clause would catch, among the
    ones modelled here. *)
Definition is_ValueError (e : PyError) : bool :=
  match e with
  | ValueError => true
  | _ => false
  end.

(** ** Builtins *)

(** [assert b] *)
Definition py_assert (b : bool) : result unit :=
  if b then Ok tt else Raise AssertionError.

(** [o.startswith(p)] where [o] may be [None]: attribute lookup on [None]
    raises [AttributeError]. *)
Definition startswith (o : option string) (p : string) : result bool :=
  match o with
  | None => Raise AttributeError
  | Some s => Ok (String.prefix p s)
  end.

Definition is_None {A} (o : option A) : bool :=
  match o with
  | None => true
  | Some _ => false
  end.

(** [x + o] on a [str] and an optional [str]: [str + None] is a
    [TypeError]. *)
Definition str_add (x : string) (o : option string) : result string :=
  match o with
  | None => Raise TypeError
  | Some e => Ok (x +:+ e)
  end.

(** [s or ''] *)
Definition or_empty (s : string) : string :=
  match s with
  | EmptyString => EmptyString
  | _ => s
  end.

(** [l[i]] with Python's negative indices. *)
Definition py_index {A} (l : list A) (i : Z) : result A :=
  let n := Z.of_nat (length l) in
  let j := if i <? 0 then i + n else i in
  if (0 <=? j) && (j <? n) then
    match l !! Z.to_nat j with
    | Some a => Ok a
    | None => Raise IndexError
    end
  else Raise IndexError.

(** [d[k]] *)
Definition dict_get (d : gmap string Z) (k : string) : result Z :=
  match d !! k with
  | Some v => Ok v
  | None => Raise KeyError
  end.

(** [series.unique()], [frame.drop_duplicates()]: the first occurrence of
    every value is kept, in order. *)
Fixpoint unique `{EqDecision A} (l : list A) : list A :=
  match l with
  | [] => []
  | x :: l' => x :: filter (λ y, y ≠ x) (unique l')
  end.

(** [sorted(l)] on strings. *)
Definition sorted (l : list string) : list string := merge_sort String.le l.

(** [enumerate(l)] *)
Definition enumerate {A} (l : list A) : list (Z * A) :=
  imap (λ i x, (Z.of_nat i, x)) l.

(** [{cls_name: i for i, cls_name in enumerate(classes)}] *)
Definition enumerate_dict (classes : list string) : gmap string Z :=
  foldl (λ d '(i, c), <[c := i]> d) ∅ (enumerate classes).

(** ** The platform's [os.path] *)

Class OsPath : Type := {
  expanduser : string → string;
  join : string → string → string
}.

Definition endswith_sep (s : string) : bool :=
  String.prefix "/" (String.rev s).

(** [posixpath.join] with two arguments; no home directory expansion. *)
Definition posix_join (a b : string) : string :=
  if String.prefix "/" b then b
  else if bool_decide (a = "") || endswith_sep a then a +:+ b
  else a +:+ "/" +:+ b.

Definition posix : OsPath := {| expanduser := id; join := posix_join |}.

(** ** numpy dtypes

    [rows[self.label_bbox].values] is an [int64] array when the four
    columns are integer columns and a [float64] array when one of them is a
    float column (the only case in which a NaN can occur). [dadd] is the
    element-wise [+] of the array; [dne] the element-wise [!=]; [dsub] the
    element-wise [-], which the code does not use but the inverse conversion
    of the specification does. *)

Class Dtype (C : Type) : Type := {
  dadd : C → C → C;
  dsub : C → C → C;
  dne : C → C → bool
}.

Definition wrap64 (z : Z) : Z := (z + 2 ^ 63) mod 2 ^ 64 - 2 ^ 63.

Definition in_int64 (z : Z) : Prop := - 2 ^ 63 ≤ z < 2 ^ 63.

Global Instance int64 : Dtype Z := {|
  dadd x y := wrap64 (x + y);
  dsub x y := wrap64 (x - y);
  dne x y := negb (x =? y)
|}.

Global Instance float64 : Dtype float := {|
  dadd := PrimFloat.add;
  dsub := PrimFloat.sub;
  dne x y := negb (PrimFloat.eqb x y)
|}.

(** [c != c]: true exactly on a NaN. *)
Definition is_nan `{Dtype C} (c : C) : bool := dne c c.

(** NaN is absorbing for the addition of a dtype. *)
Class DtypeLaws (C : Type) `{Dtype C} : Prop := {
  dadd_nan_l : ∀ x y : C, is_nan x = true → is_nan (dadd x y) = true;
  dadd_nan_r : ∀ x y : C, is_nan y = true → is_nan (dadd x y) = true
}.

(** ** Tables *)

(** One row of the n x 4 box array. *)
Record Box (C : Type) : Type := mkBox { col0 : C; col1 : C; col2 : C; col3 : C }.
Global Arguments mkBox {C} _ _ _ _.
Global Arguments col0 {C} _.
Global Arguments col1 {C} _.
Global Arguments col2 {C} _.
Global Arguments col3 {C} _.

(** One row of the data frame: the [label_id] column, the [label_target]
    column (class names before the mapping, class indices after it) and the
    four [label_bbox] columns, in the order of [label_bbox]. *)
Record Row (T C : Type) : Type := mkRow {
  row_id : string;
  row_target : T;
  row_bbox : Box C
}.
Global Arguments mkRow {T C} _ _ _.
Global Arguments row_id {T C} _.
Global Arguments row_target {T C} _.
Global Arguments row_bbox {T C} _.

Abbreviation DataFrame T C := (list (Row T C)).

Global Instance Box_eq_dec `{EqDecision C} : EqDecision (Box C).
Proof. solve_decision. Defined.
Global Instance Row_eq_dec `{EqDecision T, EqDecision C} : EqDecision (Row T C).
Proof. solve_decision. Defined.

Definition set_id {T C} (r : Row T C) (p : string) : Row T C :=
  mkRow p (row_target r) (row_bbox r).
Definition set_target {T U C} (r : Row T C) (t : U) : Row U C :=
  mkRow (row_id r) t (row_bbox r).

(** ** Path resolution and class indices, shared by both constructors *)

(** [assert extension.startswith('.') or extension is None] *)
Definition check_extension (extension : option string) : result unit :=
  a ← startswith extension ".";
  py_assert (a || is_None extension).

Section resolution.
Context {os : OsPath}.

(** The function mapped over the id column (lines 110-113, 199-202);
    [root] is already expanded. *)
Definition resolve_path (root extension : option string) (x : string)
    : result string :=
  match root with
  | Some r => s ← str_add x extension; Ok (join r (or_empty s))
  | None => str_add x extension
  end.

(** [if root is not None or extension is not None: samples[label_id] =
    samples[label_id].map(...)], as it acts on one cell of the id column:
    without root and extension the column is left as it is. *)
Definition resolve_id (root extension : option string) (x : string)
    : result string :=
  let root := expanduser <$> root in
  if negb (is_None root) || negb (is_None extension)
  then resolve_path root extension x
  else Ok x.
End resolution.

(** [classes = sorted(samples[label_target].unique())] *)
Definition classes_of (targets : list string) : list string :=
  sorted (unique targets).

(** [if class_to_idx is None: class_to_idx = {...}] *)
Definition class_index (class_to_idx : option (gmap string Z))
    (classes : list string) : gmap string Z :=
  match class_to_idx with
  | None => enumerate_dict classes
  | Some d => d
  end.

(** ** ImageWithPandas *)

Record ImageWithPandas : Type := {
  iwp_samples : list (string * Z);
  iwp_classes : list string;
  iwp_class_to_idx : gmap string Z;
  iwp_num_classes : Z
}.

Section ImageWithPandas.
Context {os : OsPath} {C : Type}.

(** [__init__]. A column assignment [samples[c] = samples[c].map(f)] is
    written as a pass over the rows that replaces the cell of column [c];
    the first cell on which [f] raises aborts the construction. *)
Definition ImageWithPandas_init (dataframe : DataFrame string C)
    (root extension : option string)
    (class_to_idx : option (gmap string Z)) : result ImageWithPandas :=
  (* samples = dataframe[labels].copy(deep=True) *)
  let samples := (λ r, (row_id r, row_target r)) <$> dataframe in
  check_extension extension;;
  samples ← mapM (λ s, p ← resolve_id root extension s.1; Ok (p, s.2)) samples;
  let classes := classes_of (samples.*2) in
  let class_to_idx := class_index class_to_idx classes in
  samples ← mapM (λ s, i ← dict_get class_to_idx s.2; Ok (s.1, i)) samples;
  (* samples = samples.drop_duplicates(); the index is made dense *)
  let samples := unique samples in
  Ok {| iwp_samples := samples;
        iwp_classes := classes;
        iwp_class_to_idx := class_to_idx;
        iwp_num_classes := Z.of_nat (size class_to_idx) |}.

(** [get_labels] *)
Definition iwp_get_labels (self : ImageWithPandas) : list Z :=
  (iwp_samples self).*2.

(** [__len__] *)
Definition iwp_len (self : ImageWithPandas) : Z :=
  Z.of_nat (length (iwp_samples self)).
End ImageWithPandas.

(** ** ImageBboxWithPandas *)

(** The value under ['labels']: the column [rows[self.label_target]], a
    pandas Series with the index labels of its rows, or a plain sequence,
    as a transform may return. *)
Inductive Labels : Type :=
  | LabelSeries (index values : list Z)
  | LabelList (values : list Z).

Definition labels_values (labels : Labels) : list Z :=
  match labels with
  | LabelSeries _ values => values
  | LabelList values => values
  end.

(** [len(sample['labels'])] *)
Definition labels_len (labels : Labels) : nat := length (labels_values labels).

(** A value that a tensor of dtype [torch.int] holds. *)
Definition int32_ok (v : Z) : bool := (- 2 ^ 31 <=? v) && (v <? 2 ^ 31).

(** [torch.tensor(labels, dtype=torch.int)]. The shape of a sequence that
    is not empty is found by reading [labels[0]], which on a Series with
    integer index labels is a lookup of the label 0: with no row of that
    label the lookup fails, with several it gives a Series again, and in
    both cases the shape cannot be determined ([ValueError]). The values
    are then stored one by one, and one that does not fit the dtype is
    refused ([RuntimeError]). *)
Definition torch_tensor_int (labels : Labels) : result (list Z) :=
  let store values :=
    if forallb int32_ok values then Ok values else Raise RuntimeError in
  match labels with
  | LabelList values => store values
  | LabelSeries index values =>
      if bool_decide (values = []) then Ok []
      else if bool_decide (length (filter (λ l, l = 0) index) = 1%nat)
      then store values
      else Raise ValueError
  end.
Global Arguments torch_tensor_int : simpl never.

(** The dictionary handed to, and returned by, the transform. *)
Record Package (Image C : Type) : Type := mkPackage {
  pk_image : Image;
  pk_bboxes : list (Box C);
  pk_labels : Labels
}.
Global Arguments mkPackage {Image C} _ _ _.
Global Arguments pk_image {Image C} _.
Global Arguments pk_bboxes {Image C} _.
Global Arguments pk_labels {Image C} _.

(** The box tensor of a returned sample: [torch.tensor(boxes)] of shape
    n x 4, or the stack of n tensors of shape 0 x 4. *)
Inductive BoxTensor (C : Type) : Type :=
  | Boxes (rows : list (Box C))
  | EmptyStack (n : nat).
Global Arguments Boxes {C} rows.
Global Arguments EmptyStack {C} n.

Record Sample (Image C : Type) : Type := mkSample {
  s_image : Image;
  s_labels : list Z;
  s_boxes : BoxTensor C
}.
Global Arguments mkSample {Image C} _ _ _.
Global Arguments s_image {Image C} _.
Global Arguments s_labels {Image C} _.
Global Arguments s_boxes {Image C} _.

Record ImageBboxWithPandas (Image C : Type) : Type := {
  bb_samples : DataFrame Z C;
  bb_ids : list string;
  bb_class_to_idx : gmap string Z;
  bb_num_classes : Z;
  bb_transforms : option (Package Image C → result (Package Image C));
  bb_loader : string → result Image
}.
Global Arguments bb_samples {Image C} _.
Global Arguments bb_ids {Image C} _.
Global Arguments bb_class_to_idx {Image C} _.
Global Arguments bb_num_classes {Image C} _.
Global Arguments bb_transforms {Image C} _.
Global Arguments bb_loader {Image C} _.

(** [torch.stack(tensors)]: an empty list of tensors is refused. *)
Definition torch_stack_empty {C} (n : nat) : result (BoxTensor C) :=
  match n with
  | O => Raise RuntimeError
  | S _ => Ok (EmptyStack n)
  end.

Section ImageBboxWithPandas.
Context {os : OsPath} {Image C : Type} `{Dtype C}.

Definition ImageBboxWithPandas_init (dataframe : DataFrame string C)
    (label_bbox : list string)
    (root extension : option string)
    (class_to_idx : option (gmap string Z))
    (transforms : option (Package Image C → result (Package Image C)))
    (loader : string → result Image) : result (ImageBboxWithPandas Image C) :=
  py_assert (bool_decide (length label_bbox = 4%nat));;
  (* samples = dataframe.copy(deep=True) *)
  let samples := dataframe in
  check_extension extension;;
  samples ← mapM (λ r, p ← resolve_id root extension (row_id r);
                       Ok (set_id r p)) samples;
  let classes := classes_of (row_target <$> samples) in
  let class_to_idx := class_index class_to_idx classes in
  samples ← mapM (λ r, i ← dict_get class_to_idx (row_target r);
                       Ok (set_target r i)) samples;
  Ok {| bb_samples := samples;
        bb_ids := unique (row_id <$> samples);
        bb_class_to_idx := class_to_idx;
        bb_num_classes := Z.of_nat (size class_to_idx);
        bb_transforms := transforms;
        bb_loader := loader |}.

(** [__len__] *)
Definition bb_len (self : ImageBboxWithPandas Image C) : Z :=
  Z.of_nat (length (bb_ids self)).

(** [boxes[:, 2] = boxes[:, 0] + boxes[:, 2]] *)
Definition add_col0_to_col2 (b : Box C) : Box C :=
  mkBox (col0 b) (col1 b) (dadd (col0 b) (col2 b)) (col3 b).

(** [boxes[:, 3] = boxes[:, 1] + boxes[:, 3]] *)
Definition add_col1_to_col3 (b : Box C) : Box C :=
  mkBox (col0 b) (col1 b) (col2 b) (dadd (col1 b) (col3 b)).

(** Lines 246-248: from x y w h to the two corners. *)
Definition convert_boxes (boxes : list (Box C)) : list (Box C) :=
  add_col1_to_col3 <$> (add_col0_to_col2 <$> boxes).

(** One row of [boxes != boxes], reduced with [any]. *)
Definition row_ne_self (b : Box C) : bool :=
  is_nan (col0 b) || is_nan (col1 b) || is_nan (col2 b) || is_nan (col3 b).

(** [(boxes != boxes).any()] *)
Definition any_ne_self (boxes : list (Box C)) : bool :=
  existsb row_ne_self boxes.

(** The index labels of the rows of an id. [frame_index] holds the index
    labels of [self.samples], row by row: they are those of the table the
    dataset was constructed from, which the constructor copies and whose
    index it never resets. *)
Definition group_index (frame_index : list Z) (samples : DataFrame Z C)
    (image_id : string) : list Z :=
  (filter (λ lr, row_id lr.2 = image_id) (zip frame_index samples)).*1.

(** Lines 239-253: the dictionary built before the transform. *)
Definition bb_package (self : ImageBboxWithPandas Image C)
    (frame_index : list Z) (index : Z) : result (Package Image C) :=
  image_id ← py_index (bb_ids self) index;
  let rows := filter (λ r, row_id r = image_id) (bb_samples self) in
  image ← bb_loader self image_id;
  let labels := LabelSeries (group_index frame_index (bb_samples self) image_id)
                            (row_target <$> rows) in
  let boxes := convert_boxes (row_bbox <$> rows) in
  let boxes := if any_ne_self boxes then [] else boxes in
  Ok (mkPackage image boxes labels).

(** [__getitem__] *)
Definition bb_getitem (self : ImageBboxWithPandas Image C)
    (frame_index : list Z) (index : Z) : result (Sample Image C) :=
  sample ← bb_package self frame_index index;
  sample ← match bb_transforms self with
           | Some transforms => transforms sample
           | None => Ok sample
           end;
  let image := pk_image sample in
  labels ← torch_tensor_int (pk_labels sample);
  bboxes ← (if bool_decide (length (pk_bboxes sample) = 0%nat)
            then torch_stack_empty (labels_len (pk_labels sample))
            else Ok (Boxes (pk_bboxes sample)));
  Ok (mkSample image labels bboxes).

(** [dataframe.groupby(label_id).size().reset_index(name='count')]: one
    row per distinct id, in sorted key order, with the number of rows that
    carry the id. *)
Definition groupby_size (dataframe : DataFrame string C) : list (string * Z) :=
  (λ k, (k, Z.of_nat (length (filter (λ r, row_id r = k) dataframe))))
    <$> sorted (unique (row_id <$> dataframe)).

(** [pd.merge(left, right, left_on=label_id, right_on=label_id,
    how='inner')]: the order of the left rows is kept, each one paired with
    every right row of the same key. *)
Definition merge_inner (left : DataFrame string C) (right : list (string * Z))
    : list (Row string C * Z) :=
  r ← left; kc ← filter (λ kc, kc.1 = row_id r) right; [(r, kc.2)].

(** [split_with_count]; the remaining constructor arguments are passed
    through. *)
Definition split_with_count (dataframe : DataFrame string C)
    (label_bbox : list string)
    (root extension : option string)
    (class_to_idx : option (gmap string Z))
    (transforms : option (Package Image C → result (Package Image C)))
    (loader : string → result Image)
    : result (list (ImageBboxWithPandas Image C)) :=
  let dataframe := merge_inner dataframe (groupby_size dataframe) in
  mapM (λ number,
          ImageBboxWithPandas_init
            ((filter (λ rc, rc.2 = number) dataframe).*1)
            label_bbox root extension class_to_idx transforms loader)
       (unique (dataframe.*2)).
End ImageBboxWithPandas.

(** ** DataLoaderChain *)

(** A source: what [len(loader)] declares and what one iteration over it
    produces. Nothing ties the two together. *)
Record Loader (A : Type) : Type := mkLoader {
  loader_len : nat;
  loader_items : list A
}.
Global Arguments mkLoader {A} _ _.
Global Arguments loader_len {A} _.
Global Arguments loader_items {A} _.

(** The value assigned to the [loaders] property. *)
Inductive PyValue (A : Type) : Type :=
  | PyTuple (elems : list (Loader A))
  | PyList (elems : list (Loader A)).
Global Arguments PyTuple {A} elems.
Global Arguments PyList {A} elems.

(** The two private attributes. *)
Record DataLoaderChain (A : Type) : Type := mkChain {
  chain_loaders : list (Loader A);
  chain_length : Z
}.
Global Arguments mkChain {A} _ _.
Global Arguments chain_loaders {A} _.
Global Arguments chain_length {A} _.

(** How a generator stops. *)
Inductive Outcome : Type :=
  | Returned
  | Raised (e : PyError).

(** The local variables of a running [__iter__]. *)
Record IterState (A : Type) : Type := mkIter {
  available : list (list A);
  len_available : Z
}.
Global Arguments mkIter {A} _ _.
Global Arguments available {A} _.
Global Arguments len_available {A} _.

(** One turn of the [while True] loop. *)
Inductive Step (A : Type) : Type :=
  | Yield (x : A) (st : IterState A)
  | Continue (st : IterState A)
  | Return
  | Throw (e : PyError).
Global Arguments Yield {A} x st.
Global Arguments Continue {A} st.
Global Arguments Return {A}.
Global Arguments Throw {A} e.

(** [random.randrange(n)]: any value below [n], here the remainder of an
    arbitrary natural number; an empty range is a [ValueError]. *)
Definition randrange (entropy : nat) (n : Z) : result Z :=
  if n <=? 0 then Raise ValueError
  else Ok (Z.of_nat entropy mod n).

Section DataLoaderChain.
Context {A : Type}.

(** A method acts on the object: it returns a value or raises, and leaves
    the object in some state. *)
Definition Method (R : Type) : Type :=
  DataLoaderChain A → result R * DataLoaderChain A.

(** The class attributes [__loaders = ()] and [__length = 0]. *)
Definition chain_class_defaults : DataLoaderChain A := mkChain [] 0.

(** The [loaders] setter. *)
Definition set_loaders (value : PyValue A) : Method unit := λ self,
  match value with
  | PyTuple elems =>
      (* self.__length = sum(map(len, value)) *)
      (Ok tt, mkChain elems
                (foldl Z.add 0 ((λ l, Z.of_nat (loader_len l)) <$> elems)))
  | PyList _ => (Raise TypeError, self)
  end.

(** [__init__(self, *loaders)] *)
Definition DataLoaderChain_init (loaders : list (Loader A))
    : result unit * DataLoaderChain A :=
  set_loaders (PyTuple loaders) chain_class_defaults.

(** [__len__] *)
Definition chain_len : Method Z := λ self, (Ok (chain_length self), self).

(** [__getitem__] *)
Definition chain_getitem (item : Z) : Method A := λ self,
  (Raise NotImplementedError, self).

(** Lines 343-344. *)
Definition iter_start (self : DataLoaderChain A) : IterState A :=
  let available := loader_items <$> chain_loaders self in
  mkIter available (Z.of_nat (length available)).

(** Lines 346-353. *)
Definition iter_step (entropy : nat) (st : IterState A) : Step A :=
  match randrange entropy (len_available st) with
  | Raise e => Throw e
  | Ok idx =>
      match py_index (available st) idx with
      | Raise e => Throw e
      | Ok (x :: rest) =>
          Yield x (mkIter (<[Z.to_nat idx := rest]> (available st))
                          (len_available st))
      | Ok [] =>
          let available := delete (Z.to_nat idx) (available st) in
          let len_available := len_available st - 1 in
          if len_available =? 0 then Return
          else Continue (mkIter available len_available)
      end
  end.

(** The loop, for [fuel] turns; [rng k] feeds the [k]-th draw. The result
    is the list of yielded items and the way the generator stopped. *)
Fixpoint iter_loop (fuel : nat) (rng : nat → nat) (k : nat)
    (st : IterState A) : option (list A * Outcome) :=
  match fuel with
  | O => None
  | S fuel =>
      match iter_step (rng k) st with
      | Yield x st' =>
          r ← iter_loop fuel rng (S k) st'; Some (x :: r.1, r.2)
      | Continue st' => iter_loop fuel rng (S k) st'
      | Return => Some ([], Returned)
      | Throw e => Some ([], Raised e)
      end
  end.

(** [__iter__], run until the generator stops. The object is only read. *)
Definition chain_iter (fuel : nat) (rng : nat → nat)
    (self : DataLoaderChain A)
    : option (list A * Outcome) * DataLoaderChain A :=
  (iter_loop fuel rng 0 (iter_start self), self).

(** Fuel that suffices for a chain: one turn per item and one per source. *)
Definition iter_fuel (self : DataLoaderChain A) : nat :=
  (length (concat (loader_items <$> chain_loaders self))
   + length (chain_loaders self))%nat.
End DataLoaderChain.

(** ** Loaders *)

(** A numpy array: its shape and its elements in row-major order. *)
Record NDArray (Px : Type) : Type := mkArray {
  shape : list nat;
  elems : list Px
}.
Global Arguments mkArray {Px} _ _.
Global Arguments shape {Px} _.
Global Arguments elems {Px} _.

(** What the loaders take from the libraries: the decoding of a file into
    an array ([open], [Image.open], [convert('L')] and [np.array] for an
    image; [open], [pydicom.dcmread] and [pixel_array] for a DICOM file),
    the extension part of [os.path.splitext], and [str.lower]. *)
Class ImageIO (Px : Type) : Type := {
  read_image_L : string → result (NDArray Px);
  read_dicom_pixels : string → result (NDArray Px);
  splitext_ext : string → string;
  str_lower : string → string
}.

Section loaders.
Context {Px : Type} {io : ImageIO Px}.

(** [arr.ndim] *)
Definition ndim (arr : NDArray Px) : nat := length (shape arr).

(** [np.stack([arr])]: a new first axis of length one. *)
Definition np_stack1 (arr : NDArray Px) : NDArray Px :=
  mkArray (1%nat :: shape arr) (elems arr).

(** [arr.transpose((1, 2, 0))]: the element at (i, j, c) of the result is
    the element at (c, i, j) of [arr]; an array that has not three axes is
    refused. *)
Definition transpose_120 (arr : NDArray Px) : result (NDArray Px) :=
  match shape arr with
  | [k; h; w] =>
      Ok (mkArray [h; w; k]
            (i ← seq 0 h; j ← seq 0 w; c ← seq 0 k;
             option_list (elems arr !! ((c * h + i) * w + j)%nat)))
  | _ => Raise ValueError
  end.

(** [if arr.ndim == 2: arr = np.stack([arr]).transpose((1, 2, 0))] *)
Definition channel_last (arr : NDArray Px) : result (NDArray Px) :=
  if bool_decide (ndim arr = 2%nat) then transpose_120 (np_stack1 arr)
  else Ok arr.

(** [try: ... except Exception as exc: raise OSError(...) from exc] *)
Definition except_OSError {R} (body : result R) : result R :=
  match body with
  | Ok r => Ok r
  | Raise _ => Raise OSError
  end.

Definition pil_loader (path : string) : result (NDArray Px) :=
  except_OSError (arr ← read_image_L path; channel_last arr).

Definition dicom_loader (path : string) : result (NDArray Px) :=
  except_OSError (arr ← read_dicom_pixels path; channel_last arr).

Definition default_loader (path : string) : result (NDArray Px) :=
  if bool_decide (str_lower (splitext_ext path) = ".dcm")
  then dicom_loader path
  else pil_loader path.
End loaders.

(** ** ImageWithPandas: samples *)

(** The target of a returned sample: [np.array(target)], or what the
    target transform made of the class index. *)
Inductive Target (T : Type) : Type :=
  | Scalar (i : Z)
  | Transformed (t : T).
Global Arguments Scalar {T} i.
Global Arguments Transformed {T} t.

(** The callables the constructor stores beside the table. *)
Record Callables (Image T : Type) : Type := mkCallables {
  cb_loader : string → result Image;
  cb_transform : option (Image → result Image);
  cb_target_transform : option (Z → result T)
}.
Global Arguments mkCallables {Image T} _ _ _.
Global Arguments cb_loader {Image T} _.
Global Arguments cb_transform {Image T} _.
Global Arguments cb_target_transform {Image T} _.

(** [ImageWithPandas.__getitem__]; [samples.iloc[index]] takes negative
    positions and refuses the ones out of bounds. *)
Definition iwp_getitem {Image T} (self : ImageWithPandas)
    (cb : Callables Image T) (index : Z) : result (Image * Target T) :=
  row ← py_index (iwp_samples self) index;
  let path := row.1 in
  let target := row.2 in
  sample ← cb_loader cb path;
  sample ← match cb_transform cb with
           | Some transform => transform sample
           | None => Ok sample
           end;
  target ← match cb_target_transform cb with
           | Some target_transform =>
               t ← target_transform target; Ok (Transformed t)
           | None => Ok (Scalar target)
           end;
  Ok (sample, target).

(** ** ImageFolder *)

(** [a or b] on an optional dictionary: [None] and the empty dictionary are
    false. *)
Definition dict_or (a : option (gmap string Z)) (b : gmap string Z)
    : gmap string Z :=
  match a with
  | None => b
  | Some d => if decide (d = ∅) then b else d
  end.

(** [ImageFolder._find_classes]. [dirs] are the names of the directories
    that [os.scandir] lists; [attr] is the attribute [self.class_to_idx]:
    absent, [None], or a dictionary. *)
Definition find_classes (attr : option (option (gmap string Z)))
    (dirs : list string) : result (list string * gmap string Z) :=
  (* classes.sort() *)
  let classes := sorted dirs in
  (* try: class_to_idx = self.class_to_idx
     except AttributeError: class_to_idx = None *)
  let class_to_idx := match attr with
                      | Some value => value
                      | None => None
                      end in
  match class_to_idx with
  | None =>
      match attr with
      | None => Raise AttributeError
      | Some value => Ok (classes, dict_or value (enumerate_dict classes))
      end
  | Some d => Ok (classes, d)
  end.

(** [ImageFolder.__init__] sets the attribute before the base class calls
    [_find_classes]. *)
Definition ImageFolder_find_classes (class_to_idx : option (gmap string Z))
    (dirs : list string) : result (list string * gmap string Z) :=
  find_classes (Some class_to_idx) dirs.

(** ** DataLoaderChain: calls on an object *)

(** The [loaders] getter. *)
Definition get_loaders {A} : Method (A:=A) (list (Loader A)) := λ self,
  (Ok (chain_loaders self), self).

(** [from_datasets]: every dataset is wrapped by [DataLoader], with the
    same keyword arguments, and the loaders are chained. *)
Definition from_datasets {A D} (DataLoader : D → Loader A)
    (datasets : list D) : result unit * DataLoaderChain A :=
  DataLoaderChain_init (DataLoader <$> datasets).

(** A call on a chain. *)
Inductive Call (A : Type) : Type :=
  | CallSetLoaders (value : PyValue A)
  | CallGetLoaders
  | CallLen
  | CallGetitem (item : Z)
  | CallIter (fuel : nat) (rng : nat → nat).
Global Arguments CallSetLoaders {A} value.
Global Arguments CallGetLoaders {A}.
Global Arguments CallLen {A}.
Global Arguments CallGetitem {A} item.
Global Arguments CallIter {A} fuel rng.

(** The object after a call, whether the call returned or raised. *)
Definition after_call {A} (c : Call A) (self : DataLoaderChain A)
    : DataLoaderChain A :=
  match c with
  | CallSetLoaders value => (set_loaders value self).2
  | CallGetLoaders => (get_loaders self).2
  | CallLen => (chain_len self).2
  | CallGetitem item => (chain_getitem item self).2
  | CallIter fuel rng => (chain_iter fuel rng self).2
  end.

(** The object after a sequence of calls. *)
Definition after_calls {A} (cs : list (Call A)) (self : DataLoaderChain A)
    : DataLoaderChain A :=
  foldl (λ self c, after_call c self) self cs.

(** ** Notions of the specification *)

Section spec_notions.
Context {os : OsPath}.

(** The resolved path of an id when an extension [e] is given: what
    [resolve_id] computes, without the failure cases. *)
Definition resolved (root : option string) (e : string) (x : string) : string :=
  match root with
  | Some r => join (expanduser r) (or_empty (x +:+ e))
  | None => x +:+ e
  end.
End spec_notions.

(** The number of distinct values in a list, as the size of the set of its
    elements. *)
Definition distinct `{Countable A} (l : list A) : nat :=
  size (list_to_set l : gset A).

(** The 0-based rank of a label among a set of labels: how many of them are
    strictly smaller. *)
Definition rank (labels : gset string) (l : string) : Z :=
  Z.of_nat (size (filter (λ x, String.ltb x l = true) labels)).

(** The class mapping in use has an index for every target of the table;
    the derived mapping always has. *)
Definition covers (class_to_idx : option (gmap string Z))
    (targets : list string) : Prop :=
  match class_to_idx with
  | None => True
  | Some d => ∀ t, t ∈ targets → is_Some (d !! t)
  end.

(** The class mapping in use sends distinct targets of the table to
    distinct indices; the derived mapping always does. *)
Definition separates (class_to_idx : option (gmap string Z))
    (targets : list string) : Prop :=
  match class_to_idx with
  | None => True
  | Some d => ∀ t1 t2, t1 ∈ targets → t2 ∈ targets →
                       d !! t1 = d !! t2 → t1 = t2
  end.

(** The index of a target under a mapping that has one. *)
Definition index_of (d : gmap string Z) (t : string) : Z := default 0 (d !! t).

(** A row as the detection constructor stores it: id resolved, target
    indexed. *)
Definition stored_row {os : OsPath} {C} (root : option string) (e : string)
    (d : gmap string Z) (r : Row string C) : Row Z C :=
  mkRow (resolved root e (row_id r)) (index_of d (row_target r)) (row_bbox r).

(** The number of rows of a table that carry an id: the box count of the
    image. *)
Definition count_of {T C} (dataframe : DataFrame T C) (k : string) : Z :=
  Z.of_nat (length (filter (λ r, row_id r = k) dataframe)).

(** The rows whose id has a given box count. *)
Definition bucket {T C} (dataframe : DataFrame T C) (number : Z)
    : DataFrame T C :=
  filter (λ r, count_of dataframe (row_id r) = number) dataframe.

(** The box counts observed, in order of first appearance. *)
Definition counts {T C} (dataframe : DataFrame T C) : list Z :=
  unique (count_of dataframe ∘ row_id <$> dataframe).

(** The inverse conversion of the specification: w = x1 - x0, h = y1 - y0. *)
Definition corners_to_xywh `{Dtype C} (b : Box C) : Box C :=
  mkBox (col0 b) (col1 b) (dsub (col2 b) (col0 b)) (dsub (col3 b) (col1 b)).

(** What is asked of a transform for the shape of a sample without boxes to
    be predictable: given no boxes it returns none, and it returns as many
    labels as it was given. *)
Definition keeps_empty {Image C}
    (transforms : option (Package Image C → result (Package Image C))) : Prop :=
  match transforms with
  | None => True
  | Some t => ∀ p, pk_bboxes p = [] →
      ∃ q, t p = Ok q ∧ pk_bboxes q = [] ∧
           labels_len (pk_labels q) = labels_len (pk_labels p)
  end.

(** What holds of the local variables of [__iter__] at the head of every
    turn of the loop: the counter is the number of live iterators, and
    there is one at least. *)
Definition live {A} (st : IterState A) : Prop :=
  len_available st = Z.of_nat (length (available st)) ∧ available st ≠ [].

(** What a turn of the loop may do to the live iterators: pull the head of
    one and keep them all; drop one that is exhausted while others remain;
    return when the exhausted one was the last. *)
Definition turn_ok {A} (st : IterState A) (s : Step A) : Prop :=
  match s with
  | Yield x st' =>
      ∃ i rest, available st !! i = Some (x :: rest) ∧
        available st' = <[i := rest]> (available st) ∧
        len_available st' = len_available st
  | Continue st' =>
      ∃ i, available st !! i = Some [] ∧
        available st' = delete i (available st) ∧
        len_available st' = len_available st - 1 ∧
        len_available st' ≠ 0
  | Return =>
      ∃ i, available st !! i = Some [] ∧ len_available st - 1 = 0
  | Throw _ => False
  end.

(** The stored length is the sum of the lengths the current sources
    declare. *)
Definition declared_total {A} (self : DataLoaderChain A) : Prop :=
  chain_length self = Z.of_nat (sum_list (loader_len <$> chain_loaders self)).

(** The rows of a stored table that make the sample of an id. *)
Definition group {C} (samples : DataFrame Z C) (image_id : string)
    : DataFrame Z C :=
  filter (λ r, row_id r = image_id) samples.

(** ** Example tables *)

(** Six images with 1, 1, 2, 3, 3 and 3 boxes, rows interleaved. *)
Definition table_112333 : DataFrame string Z :=
  let box := mkBox 0 0 1 1 in
  [mkRow "a" "m" box; mkRow "c" "n" box; mkRow "d" "m" box; mkRow "b" "m" box;
   mkRow "c" "m" box; mkRow "d" "n" box; mkRow "e" "m" box; mkRow "d" "m" box;
   mkRow "e" "n" box; mkRow "f" "m" box; mkRow "e" "m" box; mkRow "f" "m" box;
   mkRow "f" "n" box].

(** An image with one box and an image with two, one of them with a NaN
    abscissa. *)
Definition table_nan : DataFrame string float :=
  [mkRow "a" "cat" (mkBox 10 20 5 8)%float;
   mkRow "b" "cat" (mkBox 1 1 2 2)%float;
   mkRow "b" "dog" (mkBox nan 1 2 2)%float].

(** The detection dataset of [table_nan] with extension [.png], no
    transform, and a loader that stands a path for its image. *)
Definition dataset_nan : ImageBboxWithPandas string float :=
  {| bb_samples :=
       [mkRow "a.png" 0 (mkBox 10 20 5 8)%float;
        mkRow "b.png" 0 (mkBox 1 1 2 2)%float;
        mkRow "b.png" 1 (mkBox nan 1 2 2)%float];
     bb_ids := ["a.png"; "b.png"];
     bb_class_to_idx := enumerate_dict ["cat"; "dog"];
     bb_num_classes := 2;
     bb_transforms := None;
     bb_loader := λ path, Ok path |}.

(** One image with two boxes, one of them with a NaN abscissa; the rows
    have the index labels 0 and 1. *)
Definition dataset_poisoned : ImageBboxWithPandas string float :=
  {| bb_samples :=
       [mkRow "b.png" 0 (mkBox 1 1 2 2)%float;
        mkRow "b.png" 1 (mkBox nan 1 2 2)%float];
     bb_ids := ["b.png"];
     bb_class_to_idx := enumerate_dict ["cat"; "dog"];
     bb_num_classes := 2;
     bb_transforms := None;
     bb_loader := λ path, Ok path |}.

(** One image with one box, far from the origin and one unit wide. *)
Definition dataset_far : ImageBboxWithPandas string float :=
  {| bb_samples := [mkRow "f.png" 0 (mkBox 1e16 0 1 0)%float];
     bb_ids := ["f.png"];
     bb_class_to_idx := enumerate_dict ["cat"];
     bb_num_classes := 1;
     bb_transforms := None;
     bb_loader := λ path, Ok path |}.

(** * Properties *)

(** ** The result monad *)

Lemma bind_Ok {A B} (m : result A) (k : A → result B) (b : B) :
  m ≫= k = Ok b ↔ ∃ a, m = Ok a ∧ k a = Ok b.
Proof.
  destruct m as [a|e]; simpl; split; try done.
  - intros Hk. by exists a.
  - by intros (a' & [= <-] & Hk).
  - by intros (a' & [=] & _).
Qed.

Lemma bind_Raise {A B} (m : result A) (k : A → result B) (e : PyError) :
  m ≫= k = Raise e ↔ m = Raise e ∨ ∃ a, m = Ok a ∧ k a = Raise e.
Proof.
  destruct m as [a|e']; simpl; split.
  - intros Hk. right. by exists a.
  - by intros [[=] | (a' & [= <-] & Hk)].
  - intros [= <-]. by left.
  - by intros [[= <-] | (a' & [=] & _)].
Qed.

Lemma mapM_Ok {A B} (f : A → result B) (l : list A) (l' : list B) :
  mapM f l = Ok l' ↔ Forall2 (λ x y, f x = Ok y) l l'.
Proof.
  revert l'. induction l as [|x l IH]; intros l'; simpl.
  - split; [intros [= <-]; constructor | by inversion 1].
  - rewrite bind_Ok. split.
    + intros (y & Hy & Hrest). apply bind_Ok in Hrest as (ys & Hys & [= <-]).
      constructor; [done | by apply IH].
    + inversion 1 as [|? y ? ys Hy Hys]; subst. exists y. split; [done|].
      apply bind_Ok. exists ys. split; [by apply IH | done].
Qed.

Lemma mapM_pure {A B} (f : A → result B) (g : A → B) (l : list A) :
  (∀ x, x ∈ l → f x = Ok (g x)) → mapM f l = Ok (g <$> l).
Proof.
  intros Hf. apply mapM_Ok. apply Forall2_fmap_r, Forall_Forall2_diag.
  by apply Forall_forall.
Qed.

Lemma mapM_ext {A B} (f g : A → result B) (l : list A) :
  (∀ x, f x = g x) → mapM f l = mapM g l.
Proof. intros Hfg. induction l as [|x l IH]; simpl; [done|]. by rewrite Hfg, IH. Qed.

Lemma mapM_Raise {A B} (f : A → result B) (l : list A) (e : PyError) :
  mapM f l = Raise e → ∃ x, x ∈ l ∧ f x = Raise e.
Proof.
  induction l as [|x l IH]; simpl; [done|].
  rewrite bind_Raise. intros [Hx | (y & _ & Hrest)].
  - exists x. split; [left | done].
  - apply bind_Raise in Hrest as [Hrest | (ys & _ & [=])].
    destruct (IH Hrest) as (z & Hz & Hfz). exists z. split; [by right | done].
Qed.

(** ** The extension check *)

Lemma check_extension_Some (s : string) :
  check_extension (Some s) = py_assert (String.prefix "." s).
Proof. unfold check_extension. simpl. by rewrite orb_false_r. Qed.

(** The default argument is refused: the method call on [None] comes first
    in the asserted disjunction. *)
Lemma check_extension_None : check_extension None = Raise AttributeError.
Proof. reflexivity. Qed.

Section resolution_facts.
Context {os : OsPath}.

Lemma resolve_id_Some root e x :
  resolve_id root (Some e) x = Ok (resolved root e x).
Proof.
  unfold resolve_id, resolved. rewrite orb_true_r. by destruct root.
Qed.

Lemma resolve_ids_pairs root e (l : list (string * string)) :
  mapM (λ s, p ← resolve_id root (Some e) s.1; Ok (p, s.2)) l
  = Ok ((λ s, (resolved root e s.1, s.2)) <$> l).
Proof. apply mapM_pure. intros s _. by rewrite resolve_id_Some. Qed.

Lemma resolve_ids_rows {T C} root e (l : DataFrame T C) :
  mapM (λ r, p ← resolve_id root (Some e) (row_id r); Ok (set_id r p)) l
  = Ok ((λ r, set_id r (resolved root e (row_id r))) <$> l).
Proof. apply mapM_pure. intros s _. by rewrite resolve_id_Some. Qed.
End resolution_facts.

Lemma dict_get_Raise d k e : dict_get d k = Raise e → e = KeyError.
Proof. unfold dict_get. destruct (d !! k); by intros [=]. Qed.

Section extension_check.
Context {os : OsPath} {Image C : Type} `{Dtype C}.

Lemma ImageWithPandas_init_Some (df : DataFrame string C) root s cti :
  ImageWithPandas_init df root (Some s) cti =
   (py_assert (String.prefix "." s);;
    let samples := (λ r, (resolved root s (row_id r), row_target r)) <$> df in
    let d := class_index cti (classes_of (samples.*2)) in
    samples ← mapM (λ s, i ← dict_get d s.2; Ok (s.1, i)) samples;
    Ok {| iwp_samples := unique samples;
          iwp_classes := classes_of (row_target <$> df);
          iwp_class_to_idx := d;
          iwp_num_classes := Z.of_nat (size d) |}).
Proof.
  unfold ImageWithPandas_init. rewrite check_extension_Some.
  destruct (String.prefix "." s); simpl; [|done].
  rewrite resolve_ids_pairs. simpl. rewrite <- !list_fmap_compose.
  reflexivity.
Qed.

Lemma ImageBboxWithPandas_init_Some (df : DataFrame string C)
    label_bbox root s cti
    (transforms : option (Package Image C → result (Package Image C)))
    (loader : string → result Image) :
  ImageBboxWithPandas_init df label_bbox root (Some s) cti transforms loader =
   (py_assert (bool_decide (length label_bbox = 4%nat));;
    py_assert (String.prefix "." s);;
    let samples := (λ r, set_id r (resolved root s (row_id r))) <$> df in
    let d := class_index cti (classes_of (row_target <$> df)) in
    samples ← mapM (λ r, i ← dict_get d (row_target r);
                         Ok (set_target r i)) samples;
    Ok {| bb_samples := samples;
          bb_ids := unique (row_id <$> samples);
          bb_class_to_idx := d;
          bb_num_classes := Z.of_nat (size d);
          bb_transforms := transforms;
          bb_loader := loader |}).
Proof.
  unfold ImageBboxWithPandas_init. rewrite check_extension_Some.
  destruct (bool_decide _); simpl; [|done].
  destruct (String.prefix "." s); simpl; [|done].
  rewrite resolve_ids_rows. simpl. rewrite <- !list_fmap_compose.
  reflexivity.
Qed.

(** C1 (amended). For an extension given as a string: when it starts with
    a dot the extension check passes, and the only errors left to either
    construction are a failed lookup in the class mapping and, for the
    detection dataset, the assertion on the number of box columns; when it
    does not start with a dot both constructions raise [AssertionError],
    at construction time. *)
Theorem C1_extension_check (df : DataFrame string C) label_bbox root s cti
    (transforms : option (Package Image C → result (Package Image C)))
    (loader : string → result Image) :
  (String.prefix "." s = true →
     check_extension (Some s) = Ok tt ∧
     (∀ e, ImageWithPandas_init df root (Some s) cti = Raise e →
           e = KeyError) ∧
     (∀ e, ImageBboxWithPandas_init df label_bbox root (Some s) cti
             transforms loader = Raise e →
           e = KeyError ∨ e = AssertionError ∧ length label_bbox ≠ 4%nat)) ∧
  (String.prefix "." s = false →
     check_extension (Some s) = Raise AssertionError ∧
     ImageWithPandas_init df root (Some s) cti = Raise AssertionError ∧
     ImageBboxWithPandas_init df label_bbox root (Some s) cti
       transforms loader = Raise AssertionError).
Proof.
  rewrite ImageWithPandas_init_Some, ImageBboxWithPandas_init_Some,
    check_extension_Some.
  split; intros ->; simpl.
  - split; [done|]. split.
    + intros e [He | (l & _ & [=])]%bind_Raise.
      apply mapM_Raise in He as (x & _ & [He | (? & _ & [=])]%bind_Raise).
      by eapply dict_get_Raise.
    + intros e. case_bool_decide as Hlen; simpl.
      * intros [He | (l & _ & [=])]%bind_Raise. left.
        apply mapM_Raise in He as (x & _ & [He | (? & _ & [=])]%bind_Raise).
        by eapply dict_get_Raise.
      * intros [= <-]. by right.
  - split; [done|]. split; [done|]. by case_bool_decide.
Qed.

End extension_check.

(** The same extension check at the head of both constructors. *)
Lemma C1_extension_check_witness :
  String.prefix "." ".png" = true ∧
  check_extension (Some ".png") = Ok tt ∧
  String.prefix "." "png" = false ∧
  ImageWithPandas_init (os:=posix) (C:=Z) [mkRow "a" "cat" (mkBox 1 1 2 2)]
    None (Some "png") None = Raise AssertionError.
Proof.
  pose proof (C1_extension_check (os:=posix) (Image:=unit) (C:=Z)
                [mkRow "a" "cat" (mkBox 1 1 2 2)] ["x"; "y"; "w"; "h"]
                None ".png" None None (λ _, Ok tt)) as [Hdot _].
  pose proof (C1_extension_check (os:=posix) (Image:=unit) (C:=Z)
                [mkRow "a" "cat" (mkBox 1 1 2 2)] ["x"; "y"; "w"; "h"]
                None "png" None None (λ _, Ok tt)) as [_ Hnodot].
  split; [reflexivity|]. split; [apply Hdot; reflexivity|].
  split; [reflexivity|]. apply Hnodot; reflexivity.
Defined.


(** C1 as written fails: an extension without the leading dot makes the
    construction raise, but the exception is the [AssertionError] of the
    [assert] statement, which no [ValueError] handler catches. *)
Lemma C1_counterexample :
  ¬ ∃ e, ImageWithPandas_init (os:=posix) (C:=Z)
           [mkRow "a" "cat" (mkBox 1 1 2 2)] None (Some "png") None = Raise e
         ∧ is_ValueError e = true.
Proof. intros (e & [= <-] & [=]). Qed.

(** ** Deduplication and counting *)

Section unique_facts.
Context `{Countable A}.
Implicit Types l : list A.

Lemma elem_of_unique l x : x ∈ unique l ↔ x ∈ l.
Proof.
  induction l as [|y l IH]; simpl; [done|].
  rewrite !elem_of_cons, list_elem_of_filter, IH.
  destruct (decide (x = y)); naive_solver.
Qed.

Lemma NoDup_unique l : NoDup (unique l).
Proof.
  induction l as [|y l IH]; simpl; [constructor|].
  apply NoDup_cons. split; [|by apply NoDup_filter].
  rewrite list_elem_of_filter. naive_solver.
Qed.

Lemma unique_NoDup l : NoDup l → unique l = l.
Proof.
  induction 1 as [|x l Hx Hl IH]; simpl; [done|]. rewrite IH. f_equal.
  clear IH Hl. induction l as [|y l IH]; [done|].
  apply not_elem_of_cons in Hx as [Hxy Hx].
  rewrite filter_cons_True by done. f_equal. by apply IH.
Qed.

Lemma list_to_set_unique l :
  (list_to_set (unique l) : gset A) = list_to_set l.
Proof.
  apply set_eq. intros x. by rewrite !elem_of_list_to_set, elem_of_unique.
Qed.

(** The length after deduplication is the number of distinct values. *)
Lemma length_unique l : length (unique l) = distinct l.
Proof.
  unfold distinct. rewrite <- list_to_set_unique.
  symmetry. apply size_list_to_set, NoDup_unique.
Qed.

Lemma distinct_cons x l :
  distinct (x :: l) = if decide (x ∈ l) then distinct l else S (distinct l).
Proof.
  unfold distinct. rewrite list_to_set_cons. case_decide as Hx.
  - f_equal. apply set_eq. intros y.
    rewrite elem_of_union, elem_of_singleton, elem_of_list_to_set.
    naive_solver.
  - rewrite size_union, size_singleton; [done|].
    apply disjoint_singleton_l. by rewrite elem_of_list_to_set.
Qed.
End unique_facts.

(** A function that separates the elements of a list preserves the number
    of distinct values. *)
Lemma distinct_fmap_inj `{Countable A, Countable B} (f : A → B) (l : list A) :
  (∀ x y, x ∈ l → y ∈ l → f x = f y → x = y) →
  distinct (f <$> l) = distinct l.
Proof.
  induction l as [|x l IH]; intros Hinj; [done|].
  rewrite fmap_cons, !distinct_cons.
  rewrite IH; [|intros y z Hy Hz; apply Hinj; by right].
  destruct (decide (x ∈ l)) as [Hx | Hx].
  - rewrite decide_True; [done|]. apply list_elem_of_fmap. eauto.
  - rewrite decide_False; [done|].
    intros (y & Hxy & Hy)%list_elem_of_fmap. apply Hx.
    rewrite (Hinj x y); [done | by left | by right | done].
Qed.

(** ** Sorting and ranks *)

Lemma string_compare_refl (s : string) : String.compare s s = Eq.
Proof.
  pose proof (String.compare_antisym s s) as Hanti.
  destruct (String.compare s s); done.
Qed.

Lemma string_ltb_le (x y : string) :
  String.ltb x y = true ↔ String.le x y ∧ x ≠ y.
Proof.
  unfold String.le, String.ltb, String.leb.
  destruct (String.compare x y) eqn:Hcmp; simpl.
  - apply String.compare_eq_iff in Hcmp. naive_solver.
  - split; [|done]. intros _. split; [done|]. intros ->.
    by rewrite string_compare_refl in Hcmp.
  - naive_solver.
Qed.

Lemma sorted_Sorted l : StronglySorted String.le (sorted l).
Proof. apply StronglySorted_merge_sort; apply _. Qed.

Lemma sorted_Permutation l : sorted l ≡ₚ l.
Proof. apply merge_sort_Permutation. Qed.

Lemma elem_of_classes_of targets c : c ∈ classes_of targets ↔ c ∈ targets.
Proof. unfold classes_of. by rewrite sorted_Permutation, elem_of_unique. Qed.

Lemma NoDup_classes_of targets : NoDup (classes_of targets).
Proof. unfold classes_of. rewrite sorted_Permutation. apply NoDup_unique. Qed.

(** The sorted list of classes depends on the set of targets only. *)
Lemma classes_of_set targets1 targets2 :
  (list_to_set targets1 : gset string) = list_to_set targets2 →
  classes_of targets1 = classes_of targets2.
Proof.
  intros Hset. apply (Sorted_unique String.le).
  - apply StronglySorted_Sorted, sorted_Sorted.
  - apply StronglySorted_Sorted, sorted_Sorted.
  - apply NoDup_Permutation; [apply NoDup_classes_of..|].
    intros c. rewrite !elem_of_classes_of.
    by rewrite <- !(elem_of_list_to_set (C:=gset string)), Hset.
Qed.

Lemma filter_none {A} (P : A → Prop) `{∀ x, Decision (P x)} (l : list A) :
  Forall (λ x, ¬ P x) l → filter P l = [].
Proof.
  induction 1 as [|x l Hx _ IH]; [done|]. by rewrite filter_cons_False.
Qed.

(** In a sorted list without duplicates, the position of an element is the
    number of elements strictly below it. *)
Lemma sorted_position l i c :
  StronglySorted String.le l → NoDup l → l !! i = Some c →
  length (filter (λ x, String.ltb x c = true) l) = i.
Proof.
  intros Hsorted. revert i.
  induction Hsorted as [|x l Hl IH Hx]; intros i Hnd Hi; [done|].
  apply NoDup_cons in Hnd as [Hxl Hnd]. destruct i as [|i]; simpl in *.
  - injection Hi as ->. rewrite filter_cons_False.
    + rewrite filter_none; [done|].
      apply Forall_forall. intros y Hy [Hyc Hne]%string_ltb_le.
      rewrite Forall_forall in Hx. apply Hne.
      by apply (anti_symm String.le); [|apply Hx].
    + rewrite string_ltb_le. naive_solver.
  - rewrite filter_cons_True; [simpl; f_equal; by apply IH|].
    apply string_ltb_le. assert (c ∈ l) as Hc.
    { apply list_elem_of_lookup. eauto. }
    split; [by eapply Forall_forall in Hx | by intros ->].
Qed.

Lemma rank_classes_of targets i c :
  classes_of targets !! i = Some c →
  rank (list_to_set targets) c = Z.of_nat i.
Proof.
  intros Hi. unfold rank. f_equal.
  rewrite <- (sorted_position (classes_of targets) i c);
    [| apply sorted_Sorted | apply NoDup_classes_of | done].
  rewrite <- (size_list_to_set (C:=gset string))
    by apply NoDup_filter, NoDup_classes_of.
  f_equal. apply set_eq. intros x.
  rewrite elem_of_filter, !elem_of_list_to_set, list_elem_of_filter.
  by rewrite elem_of_classes_of.
Qed.

(** ** The derived class index *)

Lemma enumerate_from_cons (n : nat) (x : string) (l : list string)
    (d : gmap string Z) :
  foldl (λ d '(i, c), <[c := i]> d) d
        (imap (λ i y, (Z.of_nat (n + i), y)) (x :: l))
  = foldl (λ d '(i, c), <[c := i]> d) (<[x := Z.of_nat n]> d)
          (imap (λ i y, (Z.of_nat (S n + i), y)) l).
Proof.
  rewrite imap_cons. simpl. rewrite Nat.add_0_r. f_equal.
  apply imap_ext. intros i y _. simpl. do 2 f_equal. lia.
Qed.

Lemma enumerate_from_notin (l : list string) (n : nat) (d : gmap string Z) c :
  c ∉ l →
  foldl (λ d '(i, c), <[c := i]> d) d
        (imap (λ i y, (Z.of_nat (n + i), y)) l) !! c = d !! c.
Proof.
  revert n d. induction l as [|x l IH]; intros n d Hc; [done|].
  apply not_elem_of_cons in Hc as [Hcx Hc].
  rewrite enumerate_from_cons, IH by done. by rewrite lookup_insert_ne.
Qed.

Lemma enumerate_from_lookup (l : list string) (n : nat) (d : gmap string Z) i c :
  NoDup l → l !! i = Some c →
  foldl (λ d '(i, c), <[c := i]> d) d
        (imap (λ i y, (Z.of_nat (n + i), y)) l) !! c = Some (Z.of_nat (n + i)).
Proof.
  revert n d i. induction l as [|x l IH]; intros n d i Hnd Hi; [done|].
  apply NoDup_cons in Hnd as [Hx Hnd]. rewrite enumerate_from_cons.
  destruct i as [|i]; simpl in Hi.
  - injection Hi as ->. rewrite enumerate_from_notin by done.
    by rewrite lookup_insert_eq, Nat.add_0_r.
  - rewrite (IH _ _ i) by done. do 2 f_equal. lia.
Qed.

Lemma enumerate_dict_lookup (l : list string) i c :
  NoDup l → l !! i = Some c → enumerate_dict l !! c = Some (Z.of_nat i).
Proof.
  intros Hnd Hi. unfold enumerate_dict, enumerate.
  by rewrite (enumerate_from_lookup l 0 ∅ i c).
Qed.

Lemma enumerate_dict_None (l : list string) c :
  c ∉ l → enumerate_dict l !! c = None.
Proof.
  intros Hc. unfold enumerate_dict, enumerate.
  by rewrite (enumerate_from_notin l 0 ∅ c).
Qed.

(** Without an explicit mapping, every target of the table has an index:
    its rank among the distinct targets. *)
Lemma class_index_default targets t :
  t ∈ targets →
  class_index None (classes_of targets) !! t
  = Some (rank (list_to_set targets) t).
Proof.
  intros Ht. apply elem_of_classes_of, list_elem_of_lookup in Ht as [i Hi].
  simpl. rewrite (enumerate_dict_lookup _ i) by (apply NoDup_classes_of || done).
  f_equal. symmetry. by apply rank_classes_of.
Qed.

Lemma class_index_default_None targets t :
  t ∉ targets → class_index None (classes_of targets) !! t = None.
Proof.
  intros Ht. apply enumerate_dict_None. by rewrite elem_of_classes_of.
Qed.

Lemma rank_inj (labels : list string) t1 t2 :
  t1 ∈ labels → t2 ∈ labels →
  rank (list_to_set labels) t1 = rank (list_to_set labels) t2 → t1 = t2.
Proof.
  intros H1 H2 Hrank.
  pose proof H1 as [i Hi]%elem_of_classes_of%list_elem_of_lookup.
  pose proof H2 as [j Hj]%elem_of_classes_of%list_elem_of_lookup.
  rewrite (rank_classes_of _ i), (rank_classes_of _ j) in Hrank by done.
  apply Nat2Z.inj in Hrank as ->. congruence.
Qed.

Lemma class_index_covers cti targets t :
  covers cti targets → t ∈ targets →
  is_Some (class_index cti (classes_of targets) !! t).
Proof.
  destruct cti as [d|]; [by simpl; auto|]. intros _ Ht.
  rewrite (class_index_default targets t Ht). eauto.
Qed.

Lemma class_index_separates cti targets t1 t2 :
  separates cti targets → t1 ∈ targets → t2 ∈ targets →
  class_index cti (classes_of targets) !! t1
  = class_index cti (classes_of targets) !! t2 → t1 = t2.
Proof.
  destruct cti as [d|]; [by simpl; auto|]. intros _ H1 H2.
  rewrite !class_index_default by done. intros [=]. by eapply rank_inj.
Qed.

Lemma dict_get_index_of d t :
  is_Some (d !! t) → dict_get d t = Ok (index_of d t).
Proof. unfold dict_get, index_of. by intros [i ->]. Qed.

(** ** ImageWithPandas: construction and length *)

Section ImageWithPandas_facts.
Context {os : OsPath} {C : Type}.
Implicit Types df : DataFrame string C.

Lemma ImageWithPandas_init_Ok df root e cti :
  String.prefix "." e = true →
  covers cti (row_target <$> df) →
  let d := class_index cti (classes_of (row_target <$> df)) in
  ImageWithPandas_init df root (Some e) cti =
    Ok {| iwp_samples :=
            unique ((λ r, (resolved root e (row_id r),
                           index_of d (row_target r))) <$> df);
          iwp_classes := classes_of (row_target <$> df);
          iwp_class_to_idx := d;
          iwp_num_classes := Z.of_nat (size d) |}.
Proof.
  intros Hdot Hcov d. rewrite ImageWithPandas_init_Some, Hdot. simpl.
  rewrite <- list_fmap_compose.
  rewrite (mapM_pure _ (λ s, (s.1, index_of d s.2))).
  - simpl. by rewrite <- list_fmap_compose.
  - intros s (r & -> & Hr)%list_elem_of_fmap. simpl.
    rewrite dict_get_index_of; [done|].
    apply class_index_covers; [done|]. apply list_elem_of_fmap. eauto.
Qed.

(** C2 (amended). A construction with a well-formed extension and a class
    mapping that covers the table succeeds, and the length of the dataset
    is the number of distinct (resolved id, class index) pairs. It is the
    number of distinct (resolved id, target) pairs whenever the mapping
    sends distinct targets to distinct indices, as the derived mapping
    always does. *)
Theorem C2_length_distinct df root e cti :
  String.prefix "." e = true →
  covers cti (row_target <$> df) →
  ∃ ds, ImageWithPandas_init df root (Some e) cti = Ok ds ∧
    iwp_len ds =
      Z.of_nat (distinct ((λ r, (resolved root e (row_id r),
                                 iwp_class_to_idx ds !! row_target r)) <$> df)) ∧
    (separates cti (row_target <$> df) →
     iwp_len ds =
       Z.of_nat (distinct ((λ r, (resolved root e (row_id r),
                                  row_target r)) <$> df))).
Proof.
  intros Hdot Hcov. eexists. split; [by apply ImageWithPandas_init_Ok|].
  unfold iwp_len. simpl. rewrite length_unique.
  set (d := class_index cti (classes_of (row_target <$> df))).
  assert (∀ r, r ∈ df → d !! row_target r = Some (index_of d (row_target r)))
    as Hidx.
  { intros r Hr. unfold index_of.
    destruct (class_index_covers cti (row_target <$> df) (row_target r))
      as [i Hi]; [done | apply list_elem_of_fmap; eauto |].
    fold d in Hi. by rewrite Hi. }
  assert (distinct ((λ r, (resolved root e (row_id r),
                           index_of d (row_target r))) <$> df)
          = distinct ((λ r, (resolved root e (row_id r),
                             d !! row_target r)) <$> df)) as Hopt.
  { rewrite <- (distinct_fmap_inj (λ s, (s.1, Some s.2))).
    - rewrite <- list_fmap_compose. f_equal. apply list_fmap_ext.
      intros i r Hr%list_elem_of_lookup_2. simpl. by rewrite Hidx.
    - intros [p1 i1] [p2 i2] _ _. simpl. congruence. }
  split; [by rewrite Hopt|]. intros Hsep. rewrite Hopt. f_equal.
  rewrite <- (distinct_fmap_inj (λ s, (s.1, d !! s.2))
                ((λ r, (resolved root e (row_id r), row_target r)) <$> df)).
  - by rewrite <- list_fmap_compose.
  - intros s1 s2 (r1 & -> & Hr1)%list_elem_of_fmap
      (r2 & -> & Hr2)%list_elem_of_fmap. simpl. intros [= Hp Ht].
    f_equal; [done|].
    apply (class_index_separates cti (row_target <$> df)); [done|..|done];
      apply list_elem_of_fmap; eauto.
Qed.
End ImageWithPandas_facts.

(** A table of two rows for one image, with two class names. *)
Lemma C2_length_distinct_witness :
  ∃ ds, ImageWithPandas_init (os:=posix) (C:=Z)
          [mkRow "img" "cat" (mkBox 1 1 2 2); mkRow "img" "dog" (mkBox 3 3 1 1);
           mkRow "img" "cat" (mkBox 1 1 2 2)]
          (Some "/data") (Some ".png") None = Ok ds ∧
        iwp_len ds = 2.
Proof.
  destruct (C2_length_distinct (os:=posix) (C:=Z)
              [mkRow "img" "cat" (mkBox 1 1 2 2);
               mkRow "img" "dog" (mkBox 3 3 1 1);
               mkRow "img" "cat" (mkBox 1 1 2 2)]
              (Some "/data") ".png" None eq_refl I) as (ds & Hds & _ & Hlen).
  exists ds. split; [exact Hds|]. rewrite (Hlen I). vm_compute. reflexivity.
Defined.

(** C2 as written fails for an explicit mapping that merges two class
    names: the two rows are distinct (id, target) pairs, and one sample. *)
Lemma C2_counterexample :
  ∃ ds, ImageWithPandas_init (os:=posix) (C:=Z)
          [mkRow "img" "cat" (mkBox 1 1 2 2); mkRow "img" "dog" (mkBox 3 3 1 1)]
          None (Some ".png") (Some {[ "cat" := 0; "dog" := 0 ]}) = Ok ds ∧
        iwp_len ds = 1 ∧
        distinct [("img.png", "cat"); ("img.png", "dog")] = 2%nat.
Proof. eexists. split; [vm_compute; reflexivity|]. by vm_compute. Qed.

(** ** ImageBboxWithPandas: construction *)

Section ImageBboxWithPandas_facts.
Context {os : OsPath} {Image C : Type} `{Dtype C}.
Implicit Types df : DataFrame string C.
Implicit Types transforms : option (Package Image C → result (Package Image C)).
Implicit Types loader : string → result Image.

Lemma ImageBboxWithPandas_init_Ok df label_bbox root e cti transforms loader :
  length label_bbox = 4%nat →
  String.prefix "." e = true →
  covers cti (row_target <$> df) →
  let d := class_index cti (classes_of (row_target <$> df)) in
  ImageBboxWithPandas_init df label_bbox root (Some e) cti transforms loader =
    Ok {| bb_samples := stored_row root e d <$> df;
          bb_ids := unique (resolved root e ∘ row_id <$> df);
          bb_class_to_idx := d;
          bb_num_classes := Z.of_nat (size d);
          bb_transforms := transforms;
          bb_loader := loader |}.
Proof.
  intros Hlen Hdot Hcov d. rewrite ImageBboxWithPandas_init_Some, Hdot.
  rewrite bool_decide_true by done. simpl.
  rewrite (mapM_pure _ (λ r, set_target r (index_of d (row_target r)))).
  - simpl. rewrite <- !list_fmap_compose. reflexivity.
  - intros s (r & -> & Hr)%list_elem_of_fmap. simpl.
    rewrite dict_get_index_of; [done|].
    apply class_index_covers; [done|]. apply list_elem_of_fmap. eauto.
Qed.

(** C4. Two tables with the same set of target values, each made into a
    classification and a detection dataset without an explicit mapping: the
    four class mappings are the same one, its keys are the target values,
    and it sends every target value to its rank in the sorted distinct
    values; the stored labels are these ranks. The order of the rows plays
    no part. *)
Theorem C4_class_indices_by_rank df1 df2 label_bbox root1 root2 e1 e2
    transforms1 transforms2 loader1 loader2 :
  length label_bbox = 4%nat →
  String.prefix "." e1 = true →
  String.prefix "." e2 = true →
  (list_to_set (row_target <$> df1) : gset string)
  = list_to_set (row_target <$> df2) →
  ∃ ds1 ds2 bs1 bs2,
    ImageWithPandas_init df1 root1 (Some e1) None = Ok ds1 ∧
    ImageWithPandas_init df2 root2 (Some e2) None = Ok ds2 ∧
    ImageBboxWithPandas_init df1 label_bbox root1 (Some e1) None
      transforms1 loader1 = Ok bs1 ∧
    ImageBboxWithPandas_init df2 label_bbox root2 (Some e2) None
      transforms2 loader2 = Ok bs2 ∧
    iwp_class_to_idx ds1 = iwp_class_to_idx ds2 ∧
    bb_class_to_idx bs1 = iwp_class_to_idx ds1 ∧
    bb_class_to_idx bs2 = iwp_class_to_idx ds2 ∧
    (∀ l, iwp_class_to_idx ds1 !! l =
          if decide (l ∈ row_target <$> df1)
          then Some (rank (list_to_set (row_target <$> df1)) l)
          else None) ∧
    row_target <$> bb_samples bs1
    = rank (list_to_set (row_target <$> df1)) ∘ row_target <$> df1 ∧
    row_target <$> bb_samples bs2
    = rank (list_to_set (row_target <$> df1)) ∘ row_target <$> df2.
Proof.
  intros Hlen Hdot1 Hdot2 Hset.
  do 4 eexists.
  split; [by apply ImageWithPandas_init_Ok|].
  split; [by apply ImageWithPandas_init_Ok|].
  split; [by apply ImageBboxWithPandas_init_Ok|].
  split; [by apply ImageBboxWithPandas_init_Ok|]. simpl.
  rewrite <- (classes_of_set _ _ Hset).
  split; [done|]. split; [done|]. split; [done|].
  assert (∀ df' r, list_to_set (row_target <$> df')
                   = (list_to_set (row_target <$> df1) : gset string) →
                   r ∈ df' →
                   index_of (enumerate_dict (classes_of (row_target <$> df1)))
                            (row_target r)
                   = rank (list_to_set (row_target <$> df1)) (row_target r))
    as Hrank.
  { intros df' r Hset' Hr. unfold index_of.
    change (enumerate_dict ?c) with (class_index None c).
    rewrite class_index_default; [done|].
    apply (elem_of_list_to_set (C:=gset string)). rewrite <- Hset'.
    apply elem_of_list_to_set, list_elem_of_fmap. eauto. }
  split; [|split].
  - intros l. change (enumerate_dict ?c) with (class_index None c).
    case_decide.
    + by apply class_index_default.
    + by apply class_index_default_None.
  - rewrite <- list_fmap_compose. apply list_fmap_ext.
    intros i r Hr%list_elem_of_lookup_2. simpl. by apply (Hrank df1).
  - rewrite <- list_fmap_compose. apply list_fmap_ext.
    intros i r Hr%list_elem_of_lookup_2. simpl. by apply (Hrank df2).
Qed.
End ImageBboxWithPandas_facts.

(** Two tables with the classes c, a, b in different row orders and
    multiplicities: both get a:0, b:1, c:2. *)
Lemma C4_class_indices_by_rank_witness :
  ∃ ds1 ds2,
    ImageWithPandas_init (os:=posix) (C:=Z)
      [mkRow "i1" "c" (mkBox 0 0 1 1); mkRow "i2" "a" (mkBox 0 0 1 1);
       mkRow "i3" "b" (mkBox 0 0 1 1)] None (Some ".png") None = Ok ds1 ∧
    ImageWithPandas_init (os:=posix) (C:=Z)
      [mkRow "j1" "b" (mkBox 0 0 1 1); mkRow "j2" "b" (mkBox 0 0 1 1);
       mkRow "j3" "c" (mkBox 0 0 1 1); mkRow "j4" "a" (mkBox 0 0 1 1)]
      None (Some ".jpg") None = Ok ds2 ∧
    iwp_class_to_idx ds1 = iwp_class_to_idx ds2 ∧
    iwp_class_to_idx ds1 !! "a" = Some 0 ∧
    iwp_class_to_idx ds1 !! "b" = Some 1 ∧
    iwp_class_to_idx ds1 !! "c" = Some 2.
Proof.
  destruct (C4_class_indices_by_rank (os:=posix) (Image:=unit) (C:=Z)
      [mkRow "i1" "c" (mkBox 0 0 1 1); mkRow "i2" "a" (mkBox 0 0 1 1);
       mkRow "i3" "b" (mkBox 0 0 1 1)]
      [mkRow "j1" "b" (mkBox 0 0 1 1); mkRow "j2" "b" (mkBox 0 0 1 1);
       mkRow "j3" "c" (mkBox 0 0 1 1); mkRow "j4" "a" (mkBox 0 0 1 1)]
      ["x"; "y"; "w"; "h"] None None ".png" ".jpg" None None
      (λ _, Ok tt) (λ _, Ok tt) eq_refl eq_refl eq_refl)
    as (ds1 & ds2 & _ & _ & H1 & H2 & _ & _ & Heq & _ & _ & Hrank & _).
  { vm_compute. reflexivity. }
  exists ds1, ds2. split; [exact H1|]. split; [exact H2|].
  split; [exact Heq|]. rewrite !Hrank. by vm_compute.
Defined.

(** ** split_with_count *)

Lemma filter_fmap {A B} (f : A → B) (P : B → Prop) `{∀ y, Decision (P y)}
    (l : list A) :
  filter P (f <$> l) = f <$> filter (P ∘ f) l.
Proof.
  induction l as [|x l IH]; [done|]. rewrite fmap_cons, !filter_cons. simpl.
  case_decide; by rewrite IH.
Qed.

Lemma filter_all {A} (P : A → Prop) `{∀ x, Decision (P x)} (l : list A) :
  Forall P l → filter P l = l.
Proof.
  induction 1 as [|x l Hx _ IH]; [done|]. by rewrite filter_cons_True, IH.
Qed.

(** Among rows with distinct keys, the ones with a given key are one row. *)
Lemma filter_key_NoDup {B} (f : string → B) (keys : list string) (k : string) :
  NoDup keys → k ∈ keys →
  filter (λ kc, kc.1 = k) ((λ k', (k', f k')) <$> keys) = [(k, f k)].
Proof.
  induction 1 as [|k' keys Hk' Hnd IH]; [by intros ?%elem_of_nil|].
  rewrite fmap_cons, filter_cons. simpl. intros [-> | Hk]%elem_of_cons.
  - rewrite decide_True by done. f_equal. apply filter_none.
    apply Forall_forall. intros kc (k'' & -> & Hk'')%list_elem_of_fmap.
    simpl. by intros ->.
  - rewrite decide_False by (by intros ->). by apply IH.
Qed.

(** Grouping a list by a key: the groups of the distinct keys, put one
    after the other, are the list up to the order of its elements. *)
Lemma groups_Permutation {A} `{Countable K} (f : A → K) (l : list A)
    (ks : list K) :
  NoDup ks →
  concat ((λ k, filter (λ x, f x = k) l) <$> ks)
  ≡ₚ filter (λ x, f x ∈ ks) l.
Proof.
  induction 1 as [|k ks Hk Hnd IH]; simpl.
  - rewrite filter_none; [done|]. apply Forall_forall. intros x _.
    apply not_elem_of_nil.
  - rewrite IH. clear IH. induction l as [|x l IHl]; [done|].
    rewrite !filter_cons. destruct (decide (f x = k)) as [<-|Hne].
    + rewrite decide_False by done. rewrite decide_True by left.
      simpl. by rewrite IHl.
    + destruct (decide (f x ∈ ks)) as [Hin|Hnin].
      * rewrite decide_True by (by right).
        rewrite <- Permutation_middle. by rewrite IHl.
      * rewrite decide_False; [done|]. by intros [?|?]%elem_of_cons.
Qed.

Section split_with_count_facts.
Context {os : OsPath} {Image C : Type} `{Dtype C}.
Implicit Types df : DataFrame string C.
Implicit Types transforms : option (Package Image C → result (Package Image C)).
Implicit Types loader : string → result Image.

Lemma merge_inner_groupby_size df :
  merge_inner df (groupby_size df)
  = (λ r, (r, count_of df (row_id r))) <$> df.
Proof.
  unfold merge_inner, groupby_size.
  assert (∀ r, r ∈ df →
    (filter (λ kc, kc.1 = row_id r)
       ((λ k, (k, Z.of_nat (length (filter (λ r, row_id r = k) df))))
          <$> sorted (unique (row_id <$> df))) ≫= λ kc, [(r, kc.2)])
    = [(r, count_of df (row_id r))]) as Hrow.
  { intros r Hr.
    rewrite (filter_key_NoDup
               (λ k, Z.of_nat (length (filter (λ r, row_id r = k) df)))).
    - done.
    - rewrite sorted_Permutation. apply NoDup_unique.
    - rewrite sorted_Permutation, elem_of_unique.
      apply list_elem_of_fmap. eauto. }
  revert Hrow.
  generalize ((λ k, (k, Z.of_nat (length (filter (λ r, row_id r = k) df))))
                <$> sorted (unique (row_id <$> df))).
  generalize (count_of df). intros cnt right.
  induction df as [|r df IH]; intros Hrow; [done|].
  rewrite bind_cons, fmap_cons, Hrow by left. simpl. f_equal.
  apply IH. intros r' Hr'. apply Hrow. by right.
Qed.

Lemma split_with_count_buckets df label_bbox root extension cti
    transforms loader :
  split_with_count df label_bbox root extension cti transforms loader
  = mapM (λ number,
            ImageBboxWithPandas_init (bucket df number) label_bbox root
              extension cti transforms loader) (counts df).
Proof.
  unfold split_with_count. rewrite merge_inner_groupby_size.
  assert (((λ r, (r, count_of df (row_id r))) <$> df).*2 = 
          count_of df ∘ row_id <$> df) as ->.
  { by rewrite <- list_fmap_compose. }
  fold (counts df). apply mapM_ext. intros number. f_equal.
  rewrite (filter_fmap (λ r, (r, count_of df (row_id r)))
             (λ rc, rc.2 = number)).
  rewrite <- list_fmap_compose. unfold bucket. simpl. apply list_fmap_id.
Qed.

(** C5. With a well-formed extension, four box columns and a class mapping
    that covers the table, [split_with_count] returns one dataset per
    distinct box count, in order of first appearance of the counts; the
    dataset of a count is the one constructed from exactly the rows whose
    id has that count, all of them kept with their boxes; its length is the
    number of distinct resolved ids among these rows, which is the number
    of distinct ids when resolution keeps distinct ids apart; the buckets
    are pairwise different counts and together hold every row of the table
    once. *)
Theorem C5_split_with_count df label_bbox root e cti transforms loader :
  length label_bbox = 4%nat →
  String.prefix "." e = true →
  covers cti (row_target <$> df) →
  ∃ dss,
    split_with_count df label_bbox root (Some e) cti transforms loader
      = Ok dss ∧
    length dss = distinct (count_of df ∘ row_id <$> df) ∧
    Forall2 (λ ds number,
               ImageBboxWithPandas_init (bucket df number) label_bbox root
                 (Some e) cti transforms loader = Ok ds ∧
               row_bbox <$> bb_samples ds = row_bbox <$> bucket df number ∧
               row_id <$> bb_samples ds
                 = resolved root e ∘ row_id <$> bucket df number ∧
               bb_len ds = Z.of_nat (distinct (resolved root e ∘ row_id
                                               <$> bucket df number)) ∧
               ((∀ x y, x ∈ row_id <$> df → y ∈ row_id <$> df →
                        resolved root e x = resolved root e y → x = y) →
                bb_len ds = Z.of_nat (distinct (row_id <$> bucket df number))))
            dss (counts df) ∧
    NoDup (counts df) ∧
    concat (bucket df <$> counts df) ≡ₚ df.
Proof.
  intros Hlen Hdot Hcov.
  assert (∀ number, covers cti (row_target <$> bucket df number)) as Hcovb.
  { intros number. destruct cti as [d|]; [|done]. simpl in *.
    intros t (r & -> & [_ Hr]%list_elem_of_filter)%list_elem_of_fmap.
    apply Hcov, list_elem_of_fmap. eauto. }
  pose (ds_of := λ number,
    let d := class_index cti (classes_of (row_target <$> bucket df number)) in
    {| bb_samples := stored_row root e d <$> bucket df number;
       bb_ids := unique (resolved root e ∘ row_id <$> bucket df number);
       bb_class_to_idx := d;
       bb_num_classes := Z.of_nat (size d);
       bb_transforms := transforms;
       bb_loader := loader |}).
  exists (ds_of <$> counts df).
  split.
  { rewrite split_with_count_buckets. apply mapM_pure. intros number _.
    by apply ImageBboxWithPandas_init_Ok. }
  split.
  { rewrite length_fmap. unfold counts. apply length_unique. }
  split.
  { apply Forall2_fmap_l, Forall_Forall2_diag, Forall_forall.
    intros number _.
    split; [by apply ImageBboxWithPandas_init_Ok|]. simpl.
    split; [by rewrite <- list_fmap_compose|].
    split; [by rewrite <- list_fmap_compose|].
    unfold bb_len. simpl. rewrite length_unique. split; [done|].
    intros Hinj. f_equal. rewrite list_fmap_compose.
    apply distinct_fmap_inj.
    intros x y (r1 & -> & [_ Hr1]%list_elem_of_filter)%list_elem_of_fmap
      (r2 & -> & [_ Hr2]%list_elem_of_filter)%list_elem_of_fmap.
    apply Hinj; apply list_elem_of_fmap; eauto. }
  split; [apply NoDup_unique|].
  unfold bucket.
  rewrite (groups_Permutation (count_of df ∘ row_id) df (counts df))
    by apply NoDup_unique.
  rewrite filter_all; [done|]. apply Forall_forall. intros r Hr.
  unfold counts. rewrite elem_of_unique. apply list_elem_of_fmap. eauto.
Qed.
End split_with_count_facts.

(** The table with box counts 1, 1, 2, 3, 3, 3: three datasets, of lengths
    2, 1 and 3, over 2, 2 and 9 rows. *)
Lemma C5_split_with_count_witness :
  ∃ dss,
    split_with_count (os:=posix) (Image:=unit) table_112333
      ["x"; "y"; "w"; "h"] None (Some ".png") None None (λ _, Ok tt) = Ok dss ∧
    bb_len <$> dss = [2; 1; 3] ∧
    (λ ds, length (bb_samples ds)) <$> dss = [2; 2; 9]%nat ∧
    counts table_112333 = [1; 2; 3].
Proof.
  destruct (C5_split_with_count (os:=posix) (Image:=unit) table_112333
              ["x"; "y"; "w"; "h"] None ".png" None None (λ _, Ok tt)
              eq_refl eq_refl I) as (dss & Hsplit & _).
  exists dss. split; [exact Hsplit|].
  vm_compute in Hsplit. injection Hsplit as <-.
  split; [reflexivity|]. split; [reflexivity|]. vm_compute. reflexivity.
Defined.

(** ** NaN in the two dtypes *)

Lemma int64_no_nan (x : Z) : is_nan x = false.
Proof. unfold is_nan. simpl. by rewrite Z.eqb_refl. Qed.

Global Instance int64_laws : DtypeLaws Z.
Proof. split; intros x y Hnan; by rewrite int64_no_nan in Hnan. Qed.

Lemma SFeqb_self_false (f : SpecFloat.spec_float) :
  SpecFloat.SFeqb f f = false → f = SpecFloat.S754_nan.
Proof.
  unfold SpecFloat.SFeqb.
  destruct f as [s|s| |s m e]; simpl; try done.
  - by destruct s.
  - rewrite Z.compare_refl, Pos.compare_cont_refl. by destruct s.
Qed.

Lemma float64_is_nan (x : float) :
  is_nan x = true ↔ Prim2SF x = SpecFloat.S754_nan.
Proof.
  unfold is_nan. simpl. rewrite FloatAxioms.eqb_spec, negb_true_iff. split.
  - apply SFeqb_self_false.
  - by intros ->.
Qed.

Global Instance float64_laws : DtypeLaws float.
Proof.
  split; intros x y; rewrite !float64_is_nan; simpl;
    rewrite FloatAxioms.add_spec; intros ->; [done|].
  unfold FloatAxioms.SF64add, SpecFloat.SFadd. by destruct (Prim2SF x).
Qed.

(** ** ImageBboxWithPandas: samples *)

Section getitem_facts.
Context {Image C : Type} `{DtypeLaws C}.
Implicit Types self : ImageBboxWithPandas Image C.
Implicit Types b : Box C.

(** Both corners of a converted row. *)
Lemma convert_boxes_rows (boxes : list (Box C)) :
  convert_boxes boxes
  = (λ b, mkBox (col0 b) (col1 b) (dadd (col0 b) (col2 b))
                (dadd (col1 b) (col3 b))) <$> boxes.
Proof. unfold convert_boxes. by rewrite <- list_fmap_compose. Qed.

Lemma row_ne_self_convert b :
  row_ne_self b = true →
  row_ne_self (add_col1_to_col3 (add_col0_to_col2 b)) = true.
Proof.
  unfold row_ne_self. simpl. rewrite !orb_true_iff.
  intros [[[Hc0 | Hc1] | Hc2] | Hc3]; auto using dadd_nan_r.
Qed.

Lemma any_ne_self_convert (boxes : list (Box C)) b :
  b ∈ boxes → row_ne_self b = true →
  any_ne_self (convert_boxes boxes) = true.
Proof.
  intros Hb Hnan. apply existsb_exists.
  exists (add_col1_to_col3 (add_col0_to_col2 b)).
  split; [|by apply row_ne_self_convert].
  apply list_elem_of_In. unfold convert_boxes.
  rewrite <- list_fmap_compose. apply list_elem_of_fmap. eauto.
Qed.

Lemma torch_tensor_int_values (labels : Labels) (values : list Z) :
  torch_tensor_int labels = Ok values → values = labels_values labels.
Proof.
  unfold torch_tensor_int. destruct labels as [index vs|vs]; simpl.
  - case_bool_decide as Hnil; [by intros [= <-]|].
    case_bool_decide; [|done]. by destruct (forallb int32_ok vs); intros [= <-].
  - by destruct (forallb int32_ok vs); intros [= <-].
Qed.

(** A NaN in a row of the group empties the box array of the dictionary;
    the labels are the column of the group. *)
Lemma bb_package_nan self frame_index index image_id image r :
  py_index (bb_ids self) index = Ok image_id →
  bb_loader self image_id = Ok image →
  r ∈ filter (λ r, row_id r = image_id) (bb_samples self) →
  row_ne_self (row_bbox r) = true →
  bb_package self frame_index index
  = Ok (mkPackage image []
          (LabelSeries (group_index frame_index (bb_samples self) image_id)
             (row_target <$> filter (λ r, row_id r = image_id)
                               (bb_samples self)))).
Proof.
  intros Hid Himg Hr Hnan. unfold bb_package. rewrite Hid. simpl.
  rewrite Himg. simpl.
  rewrite (any_ne_self_convert _ (row_bbox r)); [done| |done].
  apply list_elem_of_fmap. eauto.
Qed.

(** Without a NaN after conversion and without a transform, the call is
    the conversion of the label column, and the sample carries the
    converted rows. *)
Lemma bb_getitem_boxes self frame_index index image_id image :
  py_index (bb_ids self) index = Ok image_id →
  bb_loader self image_id = Ok image →
  bb_transforms self = None →
  let rows := filter (λ r, row_id r = image_id) (bb_samples self) in
  rows ≠ [] →
  any_ne_self (convert_boxes (row_bbox <$> rows)) = false →
  bb_getitem self frame_index index
  = (labels ← torch_tensor_int
                (LabelSeries (group_index frame_index (bb_samples self) image_id)
                             (row_target <$> rows));
     Ok (mkSample image labels
           (Boxes ((λ r, mkBox (col0 (row_bbox r)) (col1 (row_bbox r))
                            (dadd (col0 (row_bbox r)) (col2 (row_bbox r)))
                            (dadd (col1 (row_bbox r)) (col3 (row_bbox r))))
                   <$> rows)))).
Proof.
  intros Hid Himg Htr rows Hrows Hnan.
  unfold bb_getitem, bb_package. rewrite Hid. simpl. rewrite Himg. simpl.
  fold rows. rewrite Hnan, Htr. simpl.
  destruct (torch_tensor_int _) as [labels|e]; simpl; [|done].
  rewrite convert_boxes_rows, <- list_fmap_compose.
  rewrite bool_decide_false; [done|]. rewrite length_fmap.
  by destruct rows.
Qed.

(** A sample returned without transform for a group without NaN after
    conversion carries the converted rows. *)
Lemma bb_getitem_Ok_boxes self frame_index index image_id sample :
  py_index (bb_ids self) index = Ok image_id →
  bb_transforms self = None →
  let rows := filter (λ r, row_id r = image_id) (bb_samples self) in
  any_ne_self (convert_boxes (row_bbox <$> rows)) = false →
  bb_getitem self frame_index index = Ok sample →
  s_boxes sample
  = Boxes ((λ r, mkBox (col0 (row_bbox r)) (col1 (row_bbox r))
                    (dadd (col0 (row_bbox r)) (col2 (row_bbox r)))
                    (dadd (col1 (row_bbox r)) (col3 (row_bbox r))))
           <$> rows).
Proof.
  intros Hid Htr rows Hnan.
  destruct (bb_loader self image_id) as [image|e] eqn:Himg.
  - destruct (decide (rows = [])) as [Hnil|Hrows].
    + unfold bb_getitem, bb_package. rewrite Hid. simpl. rewrite Himg. simpl.
      fold rows. rewrite Hnil, Htr. simpl. done.
    + rewrite (bb_getitem_boxes self frame_index index image_id image)
        by done.
      fold rows. destruct (torch_tensor_int _); simpl; [|done].
      by intros [= <-].
  - unfold bb_getitem, bb_package. rewrite Hid. simpl. by rewrite Himg.
Qed.
End getitem_facts.

Lemma wrap64_id (z : Z) : in_int64 z → wrap64 z = z.
Proof.
  unfold in_int64, wrap64. intros Hz.
  rewrite Z.mod_small by lia. lia.
Qed.

Lemma wrap64_add_sub (x w : Z) : in_int64 w → wrap64 (wrap64 (x + w) - x) = w.
Proof.
  unfold in_int64, wrap64. intros Hw.
  replace ((x + w + 2 ^ 63) mod 2 ^ 64 - 2 ^ 63 - x + 2 ^ 63)
    with ((x + w + 2 ^ 63) mod 2 ^ 64 - x) by lia.
  rewrite Zminus_mod_idemp_l.
  replace (x + w + 2 ^ 63 - x) with (w + 2 ^ 63) by lia.
  rewrite Z.mod_small by lia. lia.
Qed.

Lemma dataset_nan_init :
  ImageBboxWithPandas_init (os:=posix) table_nan ["x"; "y"; "w"; "h"]
    None (Some ".png") None None (λ path, Ok path) = Ok dataset_nan.
Proof. vm_compute. reflexivity. Qed.

(** C3. The table of three rows under its default index 0, 1, 2, without
    transform: at the image with the rows [[1,1,2,2],[NaN,1,2,2]] the whole
    box array is dropped from the dictionary and both labels are kept, but
    the call does not return a sample: the label column of the group has
    the index labels 1 and 2, and its conversion to a tensor raises
    [ValueError]. The same two rows as the first of a table, with the index
    labels 0 and 1, give a sample with two labels and the stack of two empty
    placeholders. *)
Theorem C3_nan_group_raises :
  ImageBboxWithPandas_init (os:=posix) table_nan ["x"; "y"; "w"; "h"]
    None (Some ".png") None None (λ path, Ok path) = Ok dataset_nan ∧
  bb_package dataset_nan [0; 1; 2] 1
    = Ok (mkPackage "b.png" [] (LabelSeries [1; 2] [0; 1])) ∧
  bb_getitem dataset_nan [0; 1; 2] 1 = Raise ValueError ∧
  bb_getitem dataset_poisoned [0; 1] 0
    = Ok (mkSample "b.png" [0; 1] (EmptyStack 2)).
Proof.
  split; [vm_compute; reflexivity|]. split; [|split]; reflexivity.
Qed.




(** ** DataLoaderChain: iteration *)

Section iteration_facts.
Context {A : Type}.
Implicit Types st : IterState A.
Implicit Types self : DataLoaderChain A.

(** A draw among the live iterators finds one. *)
Lemma iter_step_live entropy st :
  live st →
  ∃ i it, available st !! i = Some it ∧
    iter_step entropy st =
      match it with
      | x :: rest =>
          Yield x (mkIter (<[i := rest]> (available st)) (len_available st))
      | [] =>
          if len_available st - 1 =? 0 then Return
          else Continue (mkIter (delete i (available st))
                                (len_available st - 1))
      end.
Proof.
  intros [Hlen Hne]. unfold iter_step, randrange.
  assert (0 < length (available st))%nat as Hpos.
  { destruct (available st); [done | simpl; lia]. }
  rewrite Hlen. destruct (Z.leb_spec (Z.of_nat (length (available st))) 0);
    [lia|].
  set (idx := Z.of_nat entropy mod Z.of_nat (length (available st))).
  assert (0 ≤ idx < Z.of_nat (length (available st))) as Hidx
    by (apply Z.mod_pos_bound; lia).
  unfold py_index. destruct (Z.ltb_spec idx 0); [lia|].
  destruct (Z.leb_spec 0 idx); [|lia].
  destruct (Z.ltb_spec idx (Z.of_nat (length (available st)))); [|lia]. simpl.
  destruct (lookup_lt_is_Some_2 (available st) (Z.to_nat idx)) as [it Hit];
    [lia|].
  exists (Z.to_nat idx), it. split; [done|]. rewrite Hit. by destruct it.
Qed.

Lemma iter_step_turn_ok entropy st : live st → turn_ok st (iter_step entropy st).
Proof.
  intros Hlive. destruct (iter_step_live entropy st Hlive) as (i & it & Hit & ->).
  destruct it as [|x rest]; simpl.
  - destruct (Z.eqb_spec (len_available st - 1) 0); simpl; eauto 10.
  - eauto 10.
Qed.

Lemma concat_insert_head (l : list (list A)) i x rest :
  l !! i = Some (x :: rest) → concat l ≡ₚ x :: concat (<[i := rest]> l).
Proof.
  intros Hi. rewrite insert_take_drop by (by eapply lookup_lt_Some).
  rewrite <- (take_drop_middle l i (x :: rest)) at 1 by done.
  rewrite !concat_app. simpl. by rewrite <- Permutation_middle.
Qed.

Lemma concat_delete_nil (l : list (list A)) i :
  l !! i = Some [] → concat (delete i l) = concat l.
Proof.
  intros Hi. rewrite delete_take_drop.
  rewrite <- (take_drop_middle l i []) at 3 by done.
  by rewrite !concat_app.
Qed.

(** More fuel does not change the result of a run. *)
Lemma iter_loop_more_fuel fuel rng k st r :
  iter_loop fuel rng k st = Some r → iter_loop (S fuel) rng k st = Some r.
Proof.
  revert k st r. induction fuel as [|fuel IH]; intros k st r; [done|].
  intros Hrun. simpl in Hrun. change (iter_loop (S (S fuel)) rng k st) with
    (match iter_step (rng k) st with
     | Yield x st' =>
         r ← iter_loop (S fuel) rng (S k) st'; Some (x :: r.1, r.2)
     | Continue st' => iter_loop (S fuel) rng (S k) st'
     | Return => Some ([], Returned)
     | Throw e => Some ([], Raised e)
     end).
  destruct (iter_step (rng k) st) as [x st'|st'| |e]; try done.
  - destruct (iter_loop fuel rng (S k) st') as [r'|] eqn:Hr'; [|done].
    by rewrite (IH _ _ _ Hr').
  - by apply IH.
Qed.

Lemma iter_loop_fuel_le fuel fuel' rng k st r :
  (fuel ≤ fuel')%nat →
  iter_loop fuel rng k st = Some r → iter_loop fuel' rng k st = Some r.
Proof.
  induction 1 as [|fuel' _ IH]; [done|].
  intros Hrun. by apply iter_loop_more_fuel, IH.
Qed.

(** From a state with live iterators the loop returns, after yielding
    every item that was left. *)
Lemma iter_loop_returns fuel rng k st :
  live st →
  (length (concat (available st)) + length (available st) ≤ fuel)%nat →
  ∃ ys, iter_loop fuel rng k st = Some (ys, Returned) ∧
        ys ≡ₚ concat (available st).
Proof.
  revert k st. induction fuel as [|fuel IH]; intros k st Hlive Hfuel.
  { destruct Hlive as [_ Hne]. destruct (available st); [done|simpl in *; lia]. }
  simpl. destruct (iter_step_live (rng k) st Hlive) as (i & it & Hit & ->).
  pose proof (lookup_lt_Some _ _ _ Hit) as Hi.
  destruct Hlive as [Hlen Hne]. destruct it as [|x rest].
  - destruct (Z.eqb_spec (len_available st - 1) 0) as [Hlast|Hmore].
    + exists []. split; [done|].
      rewrite <- (concat_delete_nil _ i Hit).
      destruct (available st) as [|it1 [|it2 l]] eqn:Hav; simpl in *; try lia.
      destruct i; [done | simpl in *; lia].
    + destruct (IH (S k) (mkIter (delete i (available st))
                                 (len_available st - 1)))
        as (ys & -> & Hys).
      * split; simpl.
        -- rewrite length_delete by eauto. lia.
        -- intros Hnil. apply (f_equal length) in Hnil.
           rewrite length_delete in Hnil by eauto. simpl in Hnil. lia.
      * simpl. rewrite concat_delete_nil by done.
        rewrite length_delete by eauto. lia.
      * exists ys. split; [done|]. simpl in Hys.
        by rewrite concat_delete_nil in Hys.
  - pose proof (concat_insert_head _ _ _ _ Hit) as Hperm.
    destruct (IH (S k) (mkIter (<[i := rest]> (available st))
                               (len_available st)))
      as (ys & -> & Hys).
    + split; simpl.
      * by rewrite length_insert.
      * intros Hnil. apply (f_equal length) in Hnil.
        rewrite length_insert in Hnil. simpl in Hnil. lia.
    + simpl. rewrite length_insert.
      apply Permutation_length in Hperm. simpl in Hperm. lia.
    + exists (x :: ys). split; [done|]. simpl in Hys.
      by rewrite Hperm, Hys.
Qed.

Lemma iter_start_live self : chain_loaders self ≠ [] → live (iter_start self).
Proof.
  intros Hne. split; simpl; [done|]. by destruct (chain_loaders self).
Qed.

(** C6. A chain of one source at least, each with finitely many items:
    whatever the draws, one run of the iterator returns, having yielded
    every item of every source once, hence as many items as the sources
    hold together; the chain itself is left as it was. At every turn the
    live iterators are kept and the head of one is yielded, or one that is
    exhausted is dropped; the generator returns exactly when the one
    dropped was the last. *)
Theorem C6_iteration_exhausts_sources (loaders : list (Loader A))
    (rng : nat → nat) :
  loaders ≠ [] →
  let self := (DataLoaderChain_init loaders).2 in
  (∃ ys,
     (∀ fuel, (iter_fuel self ≤ fuel)%nat →
        chain_iter fuel rng self = (Some (ys, Returned), self)) ∧
     length ys = sum_list (length ∘ loader_items <$> loaders) ∧
     ys ≡ₚ concat (loader_items <$> loaders)) ∧
  live (iter_start self) ∧
  (∀ entropy st, live st →
     turn_ok st (iter_step entropy st) ∧
     match iter_step entropy st with
     | Yield _ st' | Continue st' => live st'
     | _ => True
     end).
Proof.
  intros Hne self.
  assert (chain_loaders self = loaders) as Hloaders by done.
  assert (live (iter_start self)) as Hlive
    by (apply iter_start_live; by rewrite Hloaders).
  split; [|split; [done|]].
  - destruct (iter_loop_returns (iter_fuel self) rng 0 (iter_start self))
      as (ys & Hrun & Hys); [done| |].
    { unfold iter_fuel. simpl. by rewrite length_fmap. }
    exists ys. split; [|split].
    + intros fuel Hfuel. unfold chain_iter. f_equal.
      by apply (iter_loop_fuel_le (iter_fuel self)).
    + rewrite Hys. simpl. rewrite length_concat.
      by rewrite <- list_fmap_compose.
    + by rewrite Hys.
  - intros entropy st Hst. split; [by apply iter_step_turn_ok|].
    destruct (iter_step_live entropy st Hst) as (i & it & Hit & ->).
    pose proof (lookup_lt_Some _ _ _ Hit) as Hi.
    destruct Hst as [Hlen Hav]. destruct it as [|x rest].
    + destruct (Z.eqb_spec (len_available st - 1) 0); [done|].
      split; simpl.
      * rewrite length_delete by eauto. lia.
      * intros Hnil. apply (f_equal length) in Hnil.
        rewrite length_delete in Hnil by eauto. simpl in Hnil. lia.
    + split; simpl.
      * by rewrite length_insert.
      * intros Hnil. apply (f_equal length) in Hnil.
        rewrite length_insert in Hnil. simpl in Hnil. lia.
Qed.
End iteration_facts.

(** Sources of 3, 5 and 0 items: eight items are yielded, and the run
    returns. *)
Lemma C6_iteration_exhausts_sources_witness :
  ∃ ys,
    chain_iter 11 (λ k, k)
      (DataLoaderChain_init
         [mkLoader 3 [1; 2; 3]; mkLoader 5 [4; 5; 6; 7; 8]; mkLoader 0 []]).2
    = (Some (ys, Returned),
       (DataLoaderChain_init
          [mkLoader 3 [1; 2; 3]; mkLoader 5 [4; 5; 6; 7; 8]; mkLoader 0 []]).2)
    ∧ length ys = 8%nat.
Proof.
  destruct (C6_iteration_exhausts_sources
              [mkLoader 3 [1; 2; 3]; mkLoader 5 [4; 5; 6; 7; 8]; mkLoader 0 []]
              (λ k, k)) as [(ys & Hrun & Hlen & _) _]; [discriminate|].
  exists ys. split; [|exact Hlen].
  apply Hrun. vm_compute. lia.
Defined.

(** ** DataLoaderChain: length and indexed access *)

Section chain_facts.
Context {A : Type}.
Implicit Types self : DataLoaderChain A.

Lemma foldl_add_of_nat (l : list nat) (a : Z) :
  foldl Z.add a (Z.of_nat <$> l) = a + Z.of_nat (sum_list l).
Proof.
  revert a. induction l as [|n l IH]; intros a; simpl; [lia|].
  rewrite IH. lia.
Qed.

Lemma DataLoaderChain_init_length (loaders : list (Loader A)) :
  DataLoaderChain_init loaders
  = (Ok tt, mkChain loaders (Z.of_nat (sum_list (loader_len <$> loaders)))).
Proof.
  unfold DataLoaderChain_init. simpl. do 2 f_equal.
  change (λ l : Loader A, Z.of_nat (loader_len l))
    with (Z.of_nat ∘ @loader_len A).
  by rewrite (list_fmap_compose (@loader_len A) Z.of_nat), foldl_add_of_nat.
Qed.

(** C8. The length of a chain is the sum of the declared lengths of the
    sources it was constructed with. It is stored by the setter; reading
    it, running the iterator and asking for an item leave the object as it
    is, so the same number is read after an iteration as before; and it
    depends on the declared lengths only, not on what the sources hold. *)
Theorem C8_declared_length (loaders : list (Loader A)) (rng : nat → nat)
    (fuel : nat) (item : Z) :
  let self := (DataLoaderChain_init loaders).2 in
  (DataLoaderChain_init loaders).1 = Ok tt ∧
  chain_len self
    = (Ok (Z.of_nat (sum_list (loader_len <$> loaders))), self) ∧
  (chain_len self).2 = self ∧
  (chain_iter fuel rng self).2 = self ∧
  (chain_getitem item self).2 = self ∧
  chain_len (chain_iter fuel rng self).2 = chain_len self ∧
  (∀ loaders' : list (Loader A),
     loader_len <$> loaders' = loader_len <$> loaders →
     (chain_len (DataLoaderChain_init loaders').2).1 = (chain_len self).1).
Proof.
  intros self. unfold self. rewrite DataLoaderChain_init_length.
  repeat split.
  intros loaders' Hlens. rewrite DataLoaderChain_init_length. simpl.
  by rewrite Hlens.
Qed.

(** C9. Asking a chain for an item raises [NotImplementedError], whatever
    the chain and the position, at the call itself: nothing is returned or
    yielded, and the object is left as it is, so that its length and its
    iteration are what they were. *)
Theorem C9_getitem_not_implemented self (item : Z) (rng : nat → nat)
    (fuel : nat) :
  chain_getitem item self = (Raise NotImplementedError, self) ∧
  (chain_getitem item self).2 = self ∧
  chain_len (chain_getitem item self).2 = chain_len self ∧
  chain_iter fuel rng (chain_getitem item self).2 = chain_iter fuel rng self.
Proof.
  unfold chain_getitem. simpl. repeat split.
Qed.

(** C10. A chain without sources has length 0, and its iterator does not
    end as an empty stream: the first draw is over an empty range and
    raises [ValueError] before anything is yielded. *)
Theorem C10_empty_chain_raises (rng : nat → nat) (fuel : nat) :
  let self : DataLoaderChain A := (DataLoaderChain_init []).2 in
  (DataLoaderChain_init (A:=A) []).1 = Ok tt ∧
  chain_len self = (Ok 0, self) ∧
  chain_iter (S fuel) rng self = (Some ([], Raised ValueError), self) ∧
  chain_iter (S fuel) rng self ≠ (Some ([], Returned), self).
Proof. repeat split. discriminate. Qed.
End chain_facts.

(** A source that declares 7 items and holds 3: the length says 7, the
    iterator yields 3. *)
Lemma declared_length_not_validated :
  let self := (DataLoaderChain_init [mkLoader 7 [1; 2; 3]]).2 in
  (chain_len self).1 = Ok 7 ∧
  (chain_iter 4 (λ k, k) self).1 = Some ([1; 2; 3], Returned).
Proof. split; reflexivity. Qed.

(** * Further properties of the code *)

(** ** Outcome of the two constructors *)

Lemma mapM_Ok_elem {A B} (f : A → result B) (l : list A) (l' : list B) (x : A) :
  mapM f l = Ok l' → x ∈ l → ∃ y, f x = Ok y.
Proof.
  intros Hl [i Hi]%list_elem_of_lookup. apply mapM_Ok in Hl.
  destruct (Forall2_lookup_l _ _ _ _ _ Hl Hi) as (y & _ & Hy). eauto.
Qed.

Lemma mapM_app {A B} (f : A → result B) (l1 l2 : list A) :
  mapM f (l1 ++ l2) = (a ← mapM f l1; b ← mapM f l2; Ok (a ++ b)).
Proof.
  induction l1 as [|x l1 IH]; simpl.
  - by destruct (mapM f l2).
  - destruct (f x) as [y|e]; simpl; [|done]. rewrite IH.
    destruct (mapM f l1) as [a|e]; simpl; [|done].
    by destruct (mapM f l2).
Qed.

Lemma dict_get_Ok d k i : dict_get d k = Ok i ↔ d !! k = Some i.
Proof. unfold dict_get. destruct (d !! k); split; by intros [= ->]. Qed.

Section construction_outcomes.
Context {os : OsPath} {Image C : Type} `{Dtype C}.
Implicit Types df : DataFrame string C.
Implicit Types transforms : option (Package Image C → result (Package Image C)).
Implicit Types loader : string → result Image.

(** X1. The outcome of a construction, case by case: which exception for
    which argument, and success otherwise. The assertion on the number of
    box columns comes first, then the extension check, then the lookup of
    the targets in the class mapping. An extension left to its default
    [None] is refused by the extension check, with [AttributeError]. *)
Theorem construction_outcome df label_bbox root extension cti transforms
    loader :
  let cls := ImageWithPandas_init df root extension cti in
  let det := ImageBboxWithPandas_init df label_bbox root extension cti
               transforms loader in
  (length label_bbox ≠ 4%nat → det = Raise AssertionError) ∧
  (extension = None →
     cls = Raise AttributeError ∧
     (length label_bbox = 4%nat → det = Raise AttributeError)) ∧
  (∀ e, extension = Some e → String.prefix "." e = false →
     cls = Raise AssertionError ∧ det = Raise AssertionError) ∧
  (∀ e, extension = Some e → String.prefix "." e = true →
     ¬ covers cti (row_target <$> df) →
     cls = Raise KeyError ∧
     (length label_bbox = 4%nat → det = Raise KeyError)) ∧
  (∀ e, extension = Some e → String.prefix "." e = true →
     covers cti (row_target <$> df) →
     (∃ ds, cls = Ok ds) ∧
     (length label_bbox = 4%nat → ∃ ds, det = Ok ds)).
Proof.
  intros cls det. subst cls det. split; [|split; [|split; [|split]]].
  - intros Hlen. unfold ImageBboxWithPandas_init.
    by rewrite bool_decide_false.
  - intros ->. split; [done|]. intros Hlen.
    unfold ImageBboxWithPandas_init. by rewrite bool_decide_true.
  - intros e -> Hdot.
    rewrite ImageWithPandas_init_Some, ImageBboxWithPandas_init_Some, Hdot.
    split; [done|]. by case_bool_decide.
  - intros e -> Hdot Hncov.
    assert (∃ d, cti = Some d) as [d ->].
    { destruct cti; [eauto|]. by destruct Hncov. }
    rewrite ImageWithPandas_init_Some, ImageBboxWithPandas_init_Some, Hdot.
    simpl. split.
    + destruct (mapM _ _) as [l'|e'] eqn:Hmap; simpl.
      * destruct Hncov. intros t (r & -> & Hr)%list_elem_of_fmap.
        destruct (mapM_Ok_elem _ _ _ (resolved root e (row_id r), row_target r)
                    Hmap) as (y & Hy).
        { apply list_elem_of_fmap. eauto. }
        apply bind_Ok in Hy as (i & Hi%dict_get_Ok & _). eauto.
      * apply mapM_Raise in Hmap
          as (x & _ & [He | (? & _ & [=])]%bind_Raise).
        by rewrite (dict_get_Raise _ _ _ He).
    + intros Hlen. rewrite bool_decide_true by done. simpl.
      destruct (mapM _ _) as [l'|e'] eqn:Hmap; simpl.
      * destruct Hncov. intros t (r & -> & Hr)%list_elem_of_fmap.
        destruct (mapM_Ok_elem _ _ _
                    (set_id r (resolved root e (row_id r))) Hmap) as (y & Hy).
        { apply list_elem_of_fmap. eauto. }
        apply bind_Ok in Hy as (i & Hi%dict_get_Ok & _). eauto.
      * apply mapM_Raise in Hmap
          as (x & _ & [He | (? & _ & [=])]%bind_Raise).
        by rewrite (dict_get_Raise _ _ _ He).
  - intros e -> Hdot Hcov. split.
    + eexists. by apply ImageWithPandas_init_Ok.
    + intros Hlen. eexists. by apply ImageBboxWithPandas_init_Ok.
Qed.
End construction_outcomes.

(** A target without an index in the explicit mapping. *)
Lemma construction_outcome_witness :
  ImageWithPandas_init (os:=posix) (C:=Z)
    [mkRow "i" "cat" (mkBox 0 0 1 1); mkRow "j" "bird" (mkBox 0 0 1 1)]
    None (Some ".png") (Some {[ "cat" := 0 ]}) = Raise KeyError.
Proof.
  destruct (construction_outcome (os:=posix) (Image:=unit) (C:=Z)
              [mkRow "i" "cat" (mkBox 0 0 1 1); mkRow "j" "bird" (mkBox 0 0 1 1)]
              ["x"; "y"; "w"; "h"] None (Some ".png") (Some {[ "cat" := 0 ]})
              None (λ _, Ok tt)) as (_ & _ & _ & Hkey & _).
  apply (Hkey ".png" eq_refl eq_refl).
  intros Hcov. destruct (Hcov "bird") as [i Hi].
  - simpl. right. left.
  - vm_compute in Hi. discriminate Hi.
Defined.

(** ** Duplicated rows *)

Lemma unique_app `{EqDecision A} (l1 l2 : list A) :
  unique (l1 ++ l2) = unique l1 ++ filter (λ y, y ∉ l1) (unique l2).
Proof.
  induction l1 as [|x l1 IH]; simpl.
  - rewrite filter_all; [done|]. apply Forall_forall. intros y _.
    apply not_elem_of_nil.
  - rewrite IH, filter_app. do 2 f_equal.
    rewrite list_filter_filter. apply list_filter_iff. intros y.
    rewrite not_elem_of_cons. split; intros [? ?]; by split.
Qed.

Lemma unique_twice `{Countable A} (l : list A) : unique (l ++ l) = unique l.
Proof.
  rewrite unique_app, filter_none, app_nil_r; [done|].
  apply Forall_forall. intros y Hy Hn. apply Hn.
  by apply (elem_of_unique l y).
Qed.

Lemma classes_of_twice (targets : list string) :
  classes_of (targets ++ targets) = classes_of targets.
Proof.
  apply classes_of_set. rewrite list_to_set_app_L. apply union_idemp_L.
Qed.

(** X2. A table followed by a copy of itself makes the dataset the table makes:
    the same samples in the same order, the same classes and mapping, or
    the same exception. *)
Theorem ImageWithPandas_init_duplicated {os : OsPath} {C : Type}
    (df : DataFrame string C) root extension cti :
  ImageWithPandas_init (df ++ df) root extension cti
  = ImageWithPandas_init df root extension cti.
Proof.
  unfold ImageWithPandas_init.
  destruct (check_extension extension) as [[]|e]; simpl; [|done].
  rewrite fmap_app, mapM_app.
  destruct (mapM _ _) as [a|e]; simpl; [|done].
  rewrite fmap_app, classes_of_twice, mapM_app.
  destruct (mapM _ a) as [b|e]; simpl; [|done].
  by rewrite unique_twice.
Qed.

(** ** Labels of a classification dataset *)

Lemma dom_enumerate_dict (l : list string) :
  NoDup l → dom (enumerate_dict l) = list_to_set l.
Proof.
  intros Hnd. apply set_eq. intros c.
  rewrite elem_of_dom, elem_of_list_to_set. split.
  - intros Hc. destruct (decide (c ∈ l)) as [|Hn]; [done|].
    rewrite (enumerate_dict_None l c Hn) in Hc. by destruct Hc.
  - intros [i Hi]%list_elem_of_lookup.
    rewrite (enumerate_dict_lookup l i c) by done. eauto.
Qed.

Lemma size_enumerate_dict (l : list string) :
  NoDup l → size (enumerate_dict l) = length l.
Proof.
  intros Hnd. rewrite <- size_dom, dom_enumerate_dict by done.
  by apply size_list_to_set.
Qed.

Lemma length_classes_of (targets : list string) :
  length (classes_of targets) = distinct targets.
Proof.
  unfold classes_of. rewrite sorted_Permutation. apply length_unique.
Qed.



(** ** Positions *)

Section py_index_facts.
Context {A : Type}.
Implicit Types l : list A.

Lemma py_index_out_of_range l (i : Z) :
  i < - Z.of_nat (length l) ∨ Z.of_nat (length l) ≤ i →
  py_index l i = Raise IndexError.
Proof.
  intros Hi. unfold py_index. destruct (Z.ltb_spec i 0).
  - destruct (Z.leb_spec 0 (i + Z.of_nat (length l))); [lia|done].
  - destruct (Z.leb_spec 0 i); [|lia].
    destruct (Z.ltb_spec i (Z.of_nat (length l))); [lia|done].
Qed.

Lemma py_index_nonneg l (i : Z) x :
  0 ≤ i → l !! Z.to_nat i = Some x → py_index l i = Ok x.
Proof.
  intros Hi Hx. pose proof (lookup_lt_Some _ _ _ Hx). unfold py_index.
  destruct (Z.ltb_spec i 0); [lia|].
  destruct (Z.leb_spec 0 i); [|lia].
  destruct (Z.ltb_spec i (Z.of_nat (length l))); [|lia]. simpl.
  by rewrite Hx.
Qed.

Lemma py_index_negative l (i : Z) :
  - Z.of_nat (length l) ≤ i < 0 →
  py_index l i = py_index l (i + Z.of_nat (length l)).
Proof.
  intros Hi. unfold py_index at 1.
  destruct (Z.ltb_spec i 0); [|lia].
  destruct (Z.leb_spec 0 (i + Z.of_nat (length l))); [|lia].
  destruct (Z.ltb_spec (i + Z.of_nat (length l)) (Z.of_nat (length l)));
    [|lia]. simpl.
  destruct (lookup_lt_is_Some_2 l (Z.to_nat (i + Z.of_nat (length l))))
    as [x Hx]; [lia|].
  rewrite Hx. symmetry. apply py_index_nonneg; [lia|done].
Qed.

Lemma py_index_in_range l (i : Z) :
  - Z.of_nat (length l) ≤ i < Z.of_nat (length l) →
  ∃ x, py_index l i = Ok x ∧ x ∈ l.
Proof.
  intros Hi. destruct (Z.ltb_spec i 0).
  - rewrite py_index_negative by lia.
    destruct (lookup_lt_is_Some_2 l (Z.to_nat (i + Z.of_nat (length l))))
      as [x Hx]; [lia|].
    exists x. split; [apply py_index_nonneg; [lia|done]|].
    apply list_elem_of_lookup. eauto.
  - destruct (lookup_lt_is_Some_2 l (Z.to_nat i)) as [x Hx]; [lia|].
    exists x. split; [by apply py_index_nonneg|].
    apply list_elem_of_lookup. eauto.
Qed.
End py_index_facts.

(** ** Samples of a classification dataset *)

(** X4. A position out of bounds raises [IndexError] and the loader is not
    called; a negative position counts from the end; at a position within
    bounds the sample is the loaded image of the stored path and, without
    transforms, the stored class index, and an exception of the loader is
    the exception of the call. *)
Theorem iwp_getitem_positions {Image T : Type} (self : ImageWithPandas)
    (cb : Callables Image T) (index : Z) :
  (index < - iwp_len self ∨ iwp_len self ≤ index →
     iwp_getitem self cb index = Raise IndexError) ∧
  (- iwp_len self ≤ index < 0 →
     iwp_getitem self cb index = iwp_getitem self cb (index + iwp_len self)) ∧
  (∀ path target, 0 ≤ index →
     iwp_samples self !! Z.to_nat index = Some (path, target) →
     (∀ image, cb_loader cb path = Ok image →
        cb_transform cb = None → cb_target_transform cb = None →
        iwp_getitem self cb index = Ok (image, Scalar target)) ∧
     (∀ e, cb_loader cb path = Raise e →
        iwp_getitem self cb index = Raise e)).
Proof.
  unfold iwp_getitem, iwp_len. split; [|split].
  - intros Hi. by rewrite py_index_out_of_range.
  - intros Hi. by rewrite py_index_negative.
  - intros path target Hi Hrow. rewrite (py_index_nonneg _ _ _ Hi Hrow).
    simpl. split.
    + by intros image -> -> ->.
    + by intros e ->.
Qed.

Lemma iwp_getitem_positions_witness :
  iwp_getitem
    {| iwp_samples := [("a.png", 1); ("b.png", 0)];
       iwp_classes := ["cat"; "dog"];
       iwp_class_to_idx := enumerate_dict ["cat"; "dog"];
       iwp_num_classes := 2 |}
    (mkCallables (T:=unit) (λ path, Ok path) None None) (-1)
  = Ok ("b.png", Scalar 0).
Proof.
  destruct (iwp_getitem_positions
    {| iwp_samples := [("a.png", 1); ("b.png", 0)];
       iwp_classes := ["cat"; "dog"];
       iwp_class_to_idx := enumerate_dict ["cat"; "dog"];
       iwp_num_classes := 2 |}
    (mkCallables (T:=unit) (λ path, Ok path) None None) (-1))
    as (_ & Hneg & _).
  rewrite Hneg by (unfold iwp_len; simpl; lia).
  destruct (iwp_getitem_positions
    {| iwp_samples := [("a.png", 1); ("b.png", 0)];
       iwp_classes := ["cat"; "dog"];
       iwp_class_to_idx := enumerate_dict ["cat"; "dog"];
       iwp_num_classes := 2 |}
    (mkCallables (T:=unit) (λ path, Ok path) None None) 1)
    as (_ & _ & Hpos).
  apply (Hpos "b.png" 0); [lia | reflexivity..].
Defined.

(** ** Rows and groups of a detection dataset *)

Lemma filter_filter_sub {A} (P Q : A → Prop) `{∀ x, Decision (P x)}
    `{∀ x, Decision (Q x)} (l : list A) :
  (∀ x, x ∈ l → P x → Q x) → filter P (filter Q l) = filter P l.
Proof.
  intros Hsub. induction l as [|x l IH]; [done|].
  assert (filter P (filter Q l) = filter P l) as IH'.
  { apply IH. intros y Hy. apply Hsub. by right. }
  rewrite (filter_cons Q). destruct (decide (Q x)) as [HQ|HQ].
  - by rewrite !filter_cons, IH'.
  - rewrite IH', filter_cons_False; [done|].
    intros HP. apply HQ, Hsub; [by left|done].
Qed.

Lemma sum_list_group_sizes {A} `{Countable K} (f : A → K) (l : list A) :
  sum_list ((λ k, length (filter (λ x, f x = k) l)) <$> unique (f <$> l))
  = length l.
Proof.
  pose proof (groups_Permutation f l (unique (f <$> l)) (NoDup_unique _))
    as Hperm.
  rewrite filter_all in Hperm.
  - apply Permutation_length in Hperm.
    by rewrite length_concat, <- list_fmap_compose in Hperm.
  - apply Forall_forall. intros x Hx. apply elem_of_unique.
    apply list_elem_of_fmap. eauto.
Qed.

Section detection_rows.
Context {os : OsPath} {Image C : Type} `{Dtype C}.
Implicit Types df : DataFrame string C.
Implicit Types self : ImageBboxWithPandas Image C.
Implicit Types transforms : option (Package Image C → result (Package Image C)).
Implicit Types loader : string → result Image.

Lemma group_of_id_nonempty (samples : DataFrame Z C) image_id :
  image_id ∈ unique (row_id <$> samples) → group samples image_id ≠ [].
Proof.
  rewrite elem_of_unique. intros (r & -> & Hr)%list_elem_of_fmap Hnil.
  assert (r ∈ group samples (row_id r)) as Hin
    by (by apply list_elem_of_filter).
  rewrite Hnil in Hin. by apply elem_of_nil in Hin.
Qed.

Lemma ImageBboxWithPandas_init_fields df label_bbox root e cti transforms
    loader :
  length label_bbox = 4%nat →
  String.prefix "." e = true →
  covers cti (row_target <$> df) →
  ∃ ds,
    ImageBboxWithPandas_init df label_bbox root (Some e) cti transforms loader
      = Ok ds ∧
    bb_transforms ds = transforms ∧
    bb_loader ds = loader ∧
    bb_ids ds = unique (row_id <$> bb_samples ds) ∧
    bb_samples ds
      = stored_row root e (class_index cti (classes_of (row_target <$> df)))
          <$> df.
Proof.
  intros Hlen Hdot Hcov. eexists.
  split; [by apply ImageBboxWithPandas_init_Ok|]. simpl.
  split; [done|]. split; [done|]. split; [|done].
  by rewrite <- list_fmap_compose.
Qed.

(** X5. The detection dataset keeps every row of the table, duplicates
    included, with its box as it is and in the order of the table. Its ids
    are distinct, they are the ids of the stored rows, every id has a row,
    and the groups of the ids together are the rows of the table. *)
Theorem ImageBboxWithPandas_rows_kept df label_bbox root e cti transforms
    loader :
  length label_bbox = 4%nat →
  String.prefix "." e = true →
  covers cti (row_target <$> df) →
  ∃ ds,
    ImageBboxWithPandas_init df label_bbox root (Some e) cti transforms loader
      = Ok ds ∧
    length (bb_samples ds) = length df ∧
    row_bbox <$> bb_samples ds = row_bbox <$> df ∧
    NoDup (bb_ids ds) ∧
    (∀ image_id, image_id ∈ bb_ids ds ↔
                 ∃ r, r ∈ bb_samples ds ∧ row_id r = image_id) ∧
    (∀ image_id, image_id ∈ bb_ids ds → group (bb_samples ds) image_id ≠ []) ∧
    sum_list ((λ image_id, length (group (bb_samples ds) image_id))
                <$> bb_ids ds) = length df.
Proof.
  intros Hlen Hdot Hcov. eexists.
  split; [by apply ImageBboxWithPandas_init_Ok|]. simpl.
  set (d := class_index cti (classes_of (row_target <$> df))).
  assert (resolved root e ∘ row_id <$> df
          = row_id <$> (stored_row root e d <$> df)) as Hids
    by (by rewrite <- list_fmap_compose).
  assert (∀ image_id,
            image_id ∈ unique (resolved root e ∘ row_id <$> df) ↔
            ∃ r, r ∈ stored_row root e d <$> df ∧ row_id r = image_id)
    as Hmem.
  { intros image_id. rewrite elem_of_unique, Hids, list_elem_of_fmap.
    split; intros (r & Hr1 & Hr2); eauto. }
  split; [by rewrite length_fmap|].
  split; [by rewrite <- list_fmap_compose|].
  split; [apply NoDup_unique|]. split; [done|]. split.
  - intros image_id (r & Hr & Hid)%Hmem Hnil.
    assert (r ∈ group (stored_row root e d <$> df) image_id) as Hin
      by (by apply list_elem_of_filter).
    rewrite Hnil in Hin. by apply elem_of_nil in Hin.
  - rewrite Hids. unfold group.
    rewrite (sum_list_group_sizes row_id). by rewrite length_fmap.
Qed.

(** X6. A position out of bounds raises [IndexError], whatever the loader and
    the transform; a negative position counts from the end. *)
Theorem bb_getitem_positions self (frame_index : list Z) (index : Z) :
  (index < - bb_len self ∨ bb_len self ≤ index →
     bb_getitem self frame_index index = Raise IndexError) ∧
  (- bb_len self ≤ index < 0 →
     bb_getitem self frame_index index
     = bb_getitem self frame_index (index + bb_len self)).
Proof.
  unfold bb_getitem, bb_package, bb_len. split.
  - intros Hi. by rewrite py_index_out_of_range.
  - intros Hi. by rewrite py_index_negative.
Qed.

(** The index labels of a group are among those of the table, in their
    order. *)
Lemma group_index_sublist (frame_index : list Z) (samples : DataFrame Z C)
    image_id :
  group_index frame_index samples image_id `sublist_of` frame_index.
Proof.
  unfold group_index. revert samples.
  induction frame_index as [|l frame_index IH]; intros [|r samples];
    try apply sublist_nil_l.
  simpl. rewrite filter_cons. simpl. case_decide.
  - rewrite fmap_cons. apply sublist_skip, IH.
  - apply sublist_cons, IH.
Qed.

Lemma elem_of_group_index (frame_index : list Z) (samples : DataFrame Z C)
    image_id l :
  l ∈ group_index frame_index samples image_id →
  ∃ k r, frame_index !! k = Some l ∧ samples !! k = Some r ∧
         row_id r = image_id.
Proof.
  unfold group_index.
  intros ([l' r] & -> & [Hid Hin]%list_elem_of_filter)%list_elem_of_fmap.
  apply list_elem_of_lookup in Hin as [k Hk].
  apply lookup_zip_with_Some in Hk as (l'' & r' & [= <- <-] & Hl & Hr).
  eauto.
Qed.

Lemma length_filter_eq_NoDup (l : list Z) (a : Z) :
  NoDup l →
  length (filter (λ x, x = a) l) = if decide (a ∈ l) then 1%nat else 0%nat.
Proof.
  induction 1 as [|x l Hx Hnd IH]; [done|]. rewrite filter_cons.
  destruct (decide (x = a)) as [->|Hne].
  - rewrite decide_True by left. simpl. rewrite IH.
    by rewrite decide_False.
  - rewrite IH. destruct (decide (a ∈ l)) as [Hin|Hnin].
    + rewrite decide_True; [done | by right].
    + rewrite decide_False; [done|]. by intros [->|?]%elem_of_cons.
Qed.

(** The conversion of a label column with distinct index labels. *)
Lemma torch_tensor_int_series (index values : list Z) :
  NoDup index → values ≠ [] →
  torch_tensor_int (LabelSeries index values)
  = if decide (0 ∈ index)
    then if forallb int32_ok values then Ok values else Raise RuntimeError
    else Raise ValueError.
Proof.
  intros Hnd Hne. unfold torch_tensor_int.
  rewrite bool_decide_false by done.
  rewrite length_filter_eq_NoDup by done.
  destruct (decide (0 ∈ index)).
  - by rewrite bool_decide_true.
  - by rewrite bool_decide_false.
Qed.

(** The call for an id whose group is not empty, without transform: the
    conversion of the label column, then the sample. *)
Lemma bb_getitem_no_transform self frame_index index image_id image :
  py_index (bb_ids self) index = Ok image_id →
  bb_loader self image_id = Ok image →
  bb_transforms self = None →
  group (bb_samples self) image_id ≠ [] →
  let rows := group (bb_samples self) image_id in
  let boxes := convert_boxes (row_bbox <$> rows) in
  bb_getitem self frame_index index
  = (labels ← torch_tensor_int
                (LabelSeries (group_index frame_index (bb_samples self) image_id)
                             (row_target <$> rows));
     Ok (mkSample image labels
           (if any_ne_self boxes then EmptyStack (length rows)
            else Boxes boxes))).
Proof.
  intros Hid Himg Htr Hrows rows boxes.
  unfold bb_getitem, bb_package. rewrite Hid. simpl. rewrite Himg. simpl.
  fold (group (bb_samples self) image_id). fold rows. fold boxes.
  rewrite Htr. simpl.
  destruct (torch_tensor_int _) as [labels|e]; simpl; [|done].
  assert (0 < length rows)%nat as Hlen.
  { unfold rows. destruct (group _ _); [done | simpl; lia]. }
  destruct (any_ne_self boxes); simpl.
  - unfold labels_len. simpl. rewrite length_fmap.
    by destruct (length rows); [lia|].
  - rewrite bool_decide_false; [done|]. unfold boxes, convert_boxes.
    rewrite !length_fmap. lia.
Qed.

(** X7. A dataset constructed without transform over a loader that loads
    every path, from a table with distinct index labels. At a position
    within bounds the group of the id has a row at least, and the call
    returns exactly when the group holds the row of index label 0 and its
    class indices fit the dtype [torch.int]: without that row it raises
    [ValueError], with a class index out of range [RuntimeError]. A
    returned sample has the loaded image, the class indices of the rows of
    the id, and for boxes the converted boxes of these rows, one for each
    label, or, when one of them holds a NaN, the stack of as many empty
    placeholders. Only one id of the dataset has a sample. *)
Theorem bb_getitem_without_transform df frame_index label_bbox root e cti
    (load : string → Image) :
  length label_bbox = 4%nat →
  String.prefix "." e = true →
  covers cti (row_target <$> df) →
  length frame_index = length df →
  NoDup frame_index →
  ∃ ds,
    ImageBboxWithPandas_init df label_bbox root (Some e) cti None
      (λ path, Ok (load path)) = Ok ds ∧
    (∀ index, - bb_len ds ≤ index < bb_len ds →
       ∃ image_id,
         py_index (bb_ids ds) index = Ok image_id ∧
         let labels := row_target <$> group (bb_samples ds) image_id in
         let boxes :=
           convert_boxes (row_bbox <$> group (bb_samples ds) image_id) in
         labels ≠ [] ∧
         (0 ∉ group_index frame_index (bb_samples ds) image_id →
            bb_getitem ds frame_index index = Raise ValueError) ∧
         (0 ∈ group_index frame_index (bb_samples ds) image_id →
            forallb int32_ok labels = false →
            bb_getitem ds frame_index index = Raise RuntimeError) ∧
         (0 ∈ group_index frame_index (bb_samples ds) image_id →
            forallb int32_ok labels = true →
            ∃ sample,
              bb_getitem ds frame_index index = Ok sample ∧
              s_image sample = load image_id ∧
              s_labels sample = labels ∧
              (s_boxes sample = EmptyStack (length labels) ∨
               s_boxes sample = Boxes boxes ∧
               length boxes = length labels))) ∧
    (∀ index index' sample sample',
       bb_getitem ds frame_index index = Ok sample →
       bb_getitem ds frame_index index' = Ok sample' →
       py_index (bb_ids ds) index = py_index (bb_ids ds) index').
Proof.
  intros Hlen Hdot Hcov Hfi Hnd.
  destruct (ImageBboxWithPandas_init_fields df label_bbox root e cti None
              (λ path, Ok (load path)) Hlen Hdot Hcov)
    as (ds & Hds & Htr & Hld & Hids & Hsamples).
  assert (∀ image_id, image_id ∈ bb_ids ds →
                      group (bb_samples ds) image_id ≠ []) as Hgroups.
  { intros image_id. rewrite Hids. apply group_of_id_nonempty. }
  assert (∀ image_id,
            NoDup (group_index frame_index (bb_samples ds) image_id))
    as Hndg.
  { intros image_id.
    exact (sublist_NoDup _ _ Hnd (group_index_sublist _ _ _)). }
  assert (∀ index image_id, py_index (bb_ids ds) index = Ok image_id →
            image_id ∈ bb_ids ds →
            bb_getitem ds frame_index index
            = (labels ← torch_tensor_int
                  (LabelSeries
                     (group_index frame_index (bb_samples ds) image_id)
                     (row_target <$> group (bb_samples ds) image_id));
               Ok (mkSample (load image_id) labels
                     (if any_ne_self
                           (convert_boxes
                              (row_bbox <$> group (bb_samples ds) image_id))
                      then EmptyStack
                             (length (group (bb_samples ds) image_id))
                      else Boxes
                             (convert_boxes
                                (row_bbox <$> group (bb_samples ds)
                                                image_id))))))
    as Hcall.
  { intros index image_id Hid Hin.
    apply (bb_getitem_no_transform ds frame_index index image_id
             (load image_id)); [done | by rewrite Hld | done | by apply Hgroups]. }
  exists ds. split; [done|]. split.
  - intros index Hindex.
    destruct (py_index_in_range (bb_ids ds) index) as (image_id & Hid & Hin).
    { unfold bb_len in Hindex. lia. }
    exists image_id. split; [done|]. simpl.
    assert (row_target <$> group (bb_samples ds) image_id ≠ []) as Hne.
    { intros Hnil%fmap_nil_inv. by apply (Hgroups image_id). }
    split; [done|].
    rewrite (Hcall index image_id Hid Hin).
    rewrite torch_tensor_int_series by done.
    split; [|split].
    + intros H0. by rewrite decide_False.
    + intros H0 Hfit. rewrite decide_True by done. by rewrite Hfit.
    + intros H0 Hfit. rewrite decide_True by done. rewrite Hfit. simpl.
      eexists. split; [done|]. simpl. split; [done|]. split; [done|].
      destruct (any_ne_self _); [left | right].
      * by rewrite length_fmap.
      * split; [done|]. unfold convert_boxes. by rewrite !length_fmap.
  - assert (∀ index sample, bb_getitem ds frame_index index = Ok sample →
              ∃ image_id k r, py_index (bb_ids ds) index = Ok image_id ∧
                frame_index !! k = Some 0 ∧
                bb_samples ds !! k = Some r ∧ row_id r = image_id) as Hzero.
    { intros index sample Hsample.
      destruct (py_index (bb_ids ds) index) as [image_id|err] eqn:Hid.
      - assert (image_id ∈ bb_ids ds) as Hin.
        { unfold py_index in Hid.
          destruct ((0 <=? _) && _); [|done].
          destruct (bb_ids ds !! _) as [x|] eqn:Hx; [|done].
          injection Hid as <-. apply list_elem_of_lookup. eauto. }
        rewrite (Hcall index image_id Hid Hin) in Hsample.
        rewrite torch_tensor_int_series in Hsample;
          [|done|].
        + destruct (decide (0 ∈ _)) as [H0|H0]; [|done].
          apply elem_of_group_index in H0 as (k & r & ? & ? & ?).
          exists image_id, k, r. eauto.
        + intros Hnil%fmap_nil_inv. by apply (Hgroups image_id).
      - unfold bb_getitem, bb_package in Hsample. by rewrite Hid in Hsample. }
    intros index index' sample sample' Hs Hs'.
    destruct (Hzero index sample Hs) as (i1 & k1 & r1 & -> & Hk1 & Hr1 & <-).
    destruct (Hzero index' sample' Hs') as (i2 & k2 & r2 & -> & Hk2 & Hr2 & <-).
    assert (k1 = k2) as -> by (by eapply NoDup_lookup).
    rewrite Hr1 in Hr2. by injection Hr2 as ->.
Qed.
End detection_rows.

Lemma ImageBboxWithPandas_rows_kept_witness :
  ∃ ds,
    ImageBboxWithPandas_init (os:=posix) table_nan ["x"; "y"; "w"; "h"]
      None (Some ".png") None None (λ path, Ok path) = Ok ds ∧
    length (bb_samples ds) = 3%nat ∧ bb_ids ds = ["a.png"; "b.png"].
Proof.
  destruct (ImageBboxWithPandas_rows_kept (os:=posix) table_nan
              ["x"; "y"; "w"; "h"] None ".png" None None (λ path, Ok path)
              eq_refl eq_refl I) as (ds & Hds & Hlen & _).
  exists ds. split; [exact Hds|]. split; [exact Hlen|].
  rewrite dataset_nan_init in Hds. by injection Hds as <-.
Defined.

Lemma bb_getitem_positions_witness :
  bb_getitem dataset_nan [0; 1; 2] 2 = Raise IndexError ∧
  bb_getitem dataset_nan [0; 1; 2] (-3) = Raise IndexError ∧
  bb_getitem dataset_nan [0; 1; 2] (-2) = bb_getitem dataset_nan [0; 1; 2] 0.
Proof.
  destruct (bb_getitem_positions dataset_nan [0; 1; 2] 2) as [Hout2 _].
  destruct (bb_getitem_positions dataset_nan [0; 1; 2] (-3)) as [Hout3 _].
  destruct (bb_getitem_positions dataset_nan [0; 1; 2] (-2)) as [_ Hneg].
  unfold bb_len in *. simpl in *.
  split; [apply Hout2; lia|]. split; [apply Hout3; lia|]. apply Hneg. lia.
Defined.

(** The table of three rows under its default index: the image of the
    first row has a sample, the other image has none. *)
Lemma bb_getitem_without_transform_witness :
  ∃ ds,
    ImageBboxWithPandas_init (os:=posix) table_nan ["x"; "y"; "w"; "h"]
      None (Some ".png") None None (λ path, Ok path) = Ok ds ∧
    bb_getitem ds [0; 1; 2] 0
      = Ok (mkSample "a.png" [0] (Boxes [mkBox 10 20 15 28]%float)) ∧
    bb_getitem ds [0; 1; 2] 1 = Raise ValueError.
Proof.
  destruct (bb_getitem_without_transform (os:=posix) table_nan [0; 1; 2]
              ["x"; "y"; "w"; "h"] None ".png" None (λ path, path)
              eq_refl eq_refl I eq_refl) as (ds & Hds & Hget & _).
  { repeat constructor; set_solver. }
  exists ds. split; [exact Hds|].
  rewrite dataset_nan_init in Hds. injection Hds as <-.
  split; [reflexivity|].
  destruct (Hget 1) as (image_id & Hid & _ & Hraise & _).
  { unfold bb_len. simpl. lia. }
  injection Hid as <-. apply Hraise. vm_compute. set_solver.
Defined.

(** ** split_with_count: what the instances hold *)

Lemma filter_ext_in {A} (P Q : A → Prop) `{∀ x, Decision (P x)}
    `{∀ x, Decision (Q x)} (l : list A) :
  (∀ x, x ∈ l → P x ↔ Q x) → filter P l = filter Q l.
Proof.
  intros Hext. induction l as [|x l IH]; [done|].
  assert (filter P l = filter Q l) as IH'.
  { apply IH. intros y Hy. apply Hext. by right. }
  rewrite !filter_cons, IH'.
  destruct (decide (P x)) as [HP|HP], (decide (Q x)) as [HQ|HQ]; try done.
  - destruct HQ. apply Hext; [by left|done].
  - destruct HP. apply Hext; [by left|done].
Qed.

Lemma string_length_app (x e : string) :
  String.length (x +:+ e) = (String.length x + String.length e)%nat.
Proof. induction x as [|a x IH]; simpl; [done|]. by rewrite IH. Qed.

Lemma string_app_inj_r (x y e : string) : x +:+ e = y +:+ e → x = y.
Proof.
  revert y. induction x as [|a x IH]; intros [|b y] Heq.
  - done.
  - apply (f_equal String.length) in Heq.
    rewrite !string_length_app in Heq. simpl in Heq. lia.
  - apply (f_equal String.length) in Heq.
    rewrite !string_length_app in Heq. simpl in Heq. lia.
  - change (String a (x +:+ e) = String b (y +:+ e)) in Heq.
    injection Heq as -> Heq. f_equal. by apply IH.
Qed.

(** Without a root directory, resolution keeps distinct ids apart. *)
Lemma resolved_None_inj {os : OsPath} (e x y : string) :
  resolved None e x = resolved None e y → x = y.
Proof. apply string_app_inj_r. Qed.

Section split_facts.
Context {os : OsPath} {Image C : Type} `{Dtype C}.
Implicit Types df : DataFrame string C.
Implicit Types transforms : option (Package Image C → result (Package Image C)).
Implicit Types loader : string → result Image.

Lemma covers_bucket cti df number :
  covers cti (row_target <$> df) →
  covers cti (row_target <$> bucket df number).
Proof.
  destruct cti as [d|]; [|done]. simpl. intros Hcov t
    (r & -> & [_ Hr]%list_elem_of_filter)%list_elem_of_fmap.
  apply Hcov, list_elem_of_fmap. eauto.
Qed.

(** The instances of a successful split, one by one. *)
Lemma split_with_count_Ok df label_bbox root e cti transforms loader :
  length label_bbox = 4%nat →
  String.prefix "." e = true →
  covers cti (row_target <$> df) →
  split_with_count df label_bbox root (Some e) cti transforms loader
  = Ok ((λ number,
           let d := class_index cti
                      (classes_of (row_target <$> bucket df number)) in
           {| bb_samples := stored_row root e d <$> bucket df number;
              bb_ids := unique (resolved root e ∘ row_id <$> bucket df number);
              bb_class_to_idx := d;
              bb_num_classes := Z.of_nat (size d);
              bb_transforms := transforms;
              bb_loader := loader |}) <$> counts df).
Proof.
  intros Hlen Hdot Hcov. rewrite split_with_count_buckets.
  apply mapM_pure. intros number _.
  apply ImageBboxWithPandas_init_Ok; [done..|]. by apply covers_bucket.
Qed.

Lemma bucket_count df number r :
  r ∈ bucket df number ↔ r ∈ df ∧ count_of df (row_id r) = number.
Proof. unfold bucket. rewrite list_elem_of_filter. tauto. Qed.

(** Every row of an id is in the bucket of the id. *)
Lemma bucket_group df number x :
  count_of df x = number →
  filter (λ r, row_id r = x) (bucket df number)
  = filter (λ r, row_id r = x) df.
Proof.
  intros Hx. unfold bucket. apply filter_filter_sub.
  intros r _ Hr. simpl. by rewrite Hr.
Qed.

(** X8. When path resolution keeps the ids of the table apart, every sample
    of the instance of a count is made of that many rows: the instances
    are uniform in the number of boxes. No instance is empty, and the
    instances hold as many rows together as the table. *)
Theorem split_with_count_uniform df label_bbox root e cti transforms loader :
  length label_bbox = 4%nat →
  String.prefix "." e = true →
  covers cti (row_target <$> df) →
  (∀ x y, x ∈ row_id <$> df → y ∈ row_id <$> df →
          resolved root e x = resolved root e y → x = y) →
  ∃ dss,
    split_with_count df label_bbox root (Some e) cti transforms loader
      = Ok dss ∧
    Forall2 (λ ds number,
               bb_ids ds ≠ [] ∧
               ∀ image_id, image_id ∈ bb_ids ds →
                 Z.of_nat (length (group (bb_samples ds) image_id)) = number)
            dss (counts df) ∧
    sum_list ((λ ds, length (bb_samples ds)) <$> dss) = length df.
Proof.
  intros Hlen Hdot Hcov Hinj. eexists.
  split; [by apply split_with_count_Ok|]. split.
  - apply Forall2_fmap_l, Forall_Forall2_diag, Forall_forall.
    intros number Hnumber. simpl. split.
    + unfold counts in Hnumber. rewrite elem_of_unique in Hnumber.
      apply list_elem_of_fmap in Hnumber as (r & Hr1 & Hr2).
      assert (r ∈ bucket df number) as Hin by (by apply bucket_count).
      destruct (bucket df number) as [|r' b]; [by apply elem_of_nil in Hin|].
      done.
    + intros image_id. rewrite elem_of_unique.
      intros (r & -> & [Hr Hcount]%bucket_count)%list_elem_of_fmap.
      unfold group. rewrite filter_fmap, length_fmap. simpl.
      etrans; [|exact Hcount]. unfold count_of. do 2 f_equal.
      rewrite <- (bucket_group df number (row_id r) Hcount).
      apply filter_ext_in.
      intros r' [Hr' _]%bucket_count. simpl. split.
      * apply Hinj; apply list_elem_of_fmap; eauto.
      * intros Heq. by rewrite Heq.
  - rewrite <- list_fmap_compose.
    pose proof (groups_Permutation (count_of df ∘ row_id) df (counts df)
                  (NoDup_unique _)) as Hperm.
    rewrite filter_all in Hperm.
    + apply Permutation_length in Hperm.
      rewrite length_concat, <- list_fmap_compose in Hperm.
      rewrite <- Hperm. f_equal. apply list_fmap_ext. intros i number _.
      simpl. by rewrite length_fmap.
    + apply Forall_forall. intros r Hr. unfold counts.
      rewrite elem_of_unique. apply list_elem_of_fmap. eauto.
Qed.
End split_facts.

Section split_mapping.
Context {os : OsPath} {Image C : Type} `{Dtype C}.
Implicit Types df : DataFrame string C.
Implicit Types transforms : option (Package Image C → result (Package Image C)).
Implicit Types loader : string → result Image.

(** X9. The class mapping of the instances of a split. An explicit mapping is
    the mapping of every instance. Without one, every instance derives its
    own from the rows of its bucket: a target is sent to its rank among the
    targets of the bucket, not among those of the table. *)
Theorem split_with_count_class_mapping df label_bbox root e cti transforms
    loader :
  length label_bbox = 4%nat →
  String.prefix "." e = true →
  covers cti (row_target <$> df) →
  ∃ dss,
    split_with_count df label_bbox root (Some e) cti transforms loader
      = Ok dss ∧
    (∀ d, cti = Some d →
       Forall (λ ds, bb_class_to_idx ds = d ∧
                     bb_num_classes ds = Z.of_nat (size d)) dss) ∧
    (cti = None →
       Forall2 (λ ds number,
                  bb_num_classes ds
                    = Z.of_nat (distinct (row_target <$> bucket df number)) ∧
                  ∀ t, t ∈ row_target <$> bucket df number →
                    bb_class_to_idx ds !! t
                    = Some (rank (list_to_set
                                    (row_target <$> bucket df number)) t))
               dss (counts df)).
Proof.
  intros Hlen Hdot Hcov. eexists.
  split; [by apply split_with_count_Ok|]. split.
  - intros d ->. apply Forall_fmap, Forall_forall. by intros number _.
  - intros ->. apply Forall2_fmap_l, Forall_Forall2_diag, Forall_forall.
    intros number _. simpl. split.
    + rewrite size_enumerate_dict by apply NoDup_classes_of.
      by rewrite length_classes_of.
    + intros t Ht. by apply (class_index_default _ t).
Qed.

(** X10. An empty table is split into no instance, whatever the other
    arguments: no constructor runs. A table with a row runs the
    constructor, and what the constructor refuses for every table, the
    split refuses with the same exception. *)
Theorem split_with_count_edges df label_bbox root extension cti transforms
    loader :
  split_with_count (C:=C) [] label_bbox root extension cti transforms loader
    = Ok [] ∧
  (df ≠ [] → length label_bbox ≠ 4%nat →
     split_with_count df label_bbox root extension cti transforms loader
     = Raise AssertionError) ∧
  (df ≠ [] → length label_bbox = 4%nat → extension = None →
     split_with_count df label_bbox root extension cti transforms loader
     = Raise AttributeError) ∧
  (∀ e, df ≠ [] → extension = Some e → String.prefix "." e = false →
     split_with_count df label_bbox root extension cti transforms loader
     = Raise AssertionError).
Proof.
  split; [done|].
  assert (df ≠ [] → ∃ number rest, counts df = number :: rest) as Hcounts.
  { destruct df as [|r df]; [done|]. intros _. unfold counts. simpl. eauto. }
  split; [|split].
  - intros (number & rest & Hc)%Hcounts Hlen.
    rewrite split_with_count_buckets, Hc. simpl.
    unfold ImageBboxWithPandas_init. by rewrite bool_decide_false.
  - intros (number & rest & Hc)%Hcounts Hlen ->.
    rewrite split_with_count_buckets, Hc. simpl.
    unfold ImageBboxWithPandas_init. by rewrite bool_decide_true.
  - intros e (number & rest & Hc)%Hcounts -> Hdot.
    rewrite split_with_count_buckets, Hc. simpl.
    rewrite ImageBboxWithPandas_init_Some, Hdot. by case_bool_decide.
Qed.
End split_mapping.

(** Three images of 1, 1 and 2 boxes. *)
Lemma split_with_count_uniform_witness :
  ∃ dss,
    split_with_count (os:=posix) (Image:=unit)
      [mkRow "a" "n" (mkBox 0 0 1 1); mkRow "b" "m" (mkBox 0 0 1 1);
       mkRow "b" "n" (mkBox 2 2 1 1); mkRow "c" "n" (mkBox 0 0 1 1)]
      ["x"; "y"; "w"; "h"] None (Some ".png") None None (λ _, Ok tt) = Ok dss ∧
    (λ ds, length (bb_samples ds)) <$> dss = [2; 2]%nat ∧
    bb_ids <$> dss = [["a.png"; "c.png"]; ["b.png"]].
Proof.
  destruct (split_with_count_uniform (os:=posix) (Image:=unit)
      [mkRow "a" "n" (mkBox 0 0 1 1); mkRow "b" "m" (mkBox 0 0 1 1);
       mkRow "b" "n" (mkBox 2 2 1 1); mkRow "c" "n" (mkBox 0 0 1 1)]
      ["x"; "y"; "w"; "h"] None ".png" None None (λ _, Ok tt)
      eq_refl eq_refl I) as (dss & Hsplit & _).
  { intros x y _ _. apply resolved_None_inj. }
  exists dss. split; [exact Hsplit|].
  vm_compute in Hsplit. injection Hsplit as <-. split; reflexivity.
Defined.

(** The target n is class 0 in the instance of the images with one box and
    class 1 in the instance of the image with two. *)
Lemma split_with_count_class_mapping_witness :
  ∃ ds1 ds2,
    split_with_count (os:=posix) (Image:=unit)
      [mkRow "a" "n" (mkBox 0 0 1 1); mkRow "b" "m" (mkBox 0 0 1 1);
       mkRow "b" "n" (mkBox 2 2 1 1); mkRow "c" "n" (mkBox 0 0 1 1)]
      ["x"; "y"; "w"; "h"] None (Some ".png") None None (λ _, Ok tt)
      = Ok [ds1; ds2] ∧
    bb_class_to_idx ds1 !! "n" = Some 0 ∧
    bb_class_to_idx ds2 !! "n" = Some 1.
Proof.
  destruct (split_with_count_class_mapping (os:=posix) (Image:=unit)
      [mkRow "a" "n" (mkBox 0 0 1 1); mkRow "b" "m" (mkBox 0 0 1 1);
       mkRow "b" "n" (mkBox 2 2 1 1); mkRow "c" "n" (mkBox 0 0 1 1)]
      ["x"; "y"; "w"; "h"] None ".png" None None (λ _, Ok tt)
      eq_refl eq_refl I) as (dss & Hsplit & _).
  rewrite Hsplit. vm_compute in Hsplit. injection Hsplit as <-.
  do 2 eexists. split; [reflexivity|]. split; reflexivity.
Defined.

Lemma split_with_count_edges_witness :
  split_with_count (os:=posix) (Image:=unit)
    [mkRow "a" "n" (mkBox 0 0 1 1)] ["x"; "y"; "w"; "h"] None None None None
    (λ _, Ok tt) = Raise AttributeError.
Proof.
  destruct (split_with_count_edges (os:=posix) (Image:=unit)
              [mkRow "a" "n" (mkBox 0 0 1 1)] ["x"; "y"; "w"; "h"] None None
              None None (λ _, Ok tt)) as (_ & _ & Hnone & _).
  apply Hnone; [discriminate | reflexivity..].
Defined.

(** ** ImageFolder: classes of a directory *)

(** X11. For a directory whose subdirectories have distinct names: the classes
    are the names, sorted; an explicit mapping is returned as it is, even
    an empty one; without one, the mapping sends the class at position i to
    i, and it is the mapping the table-backed datasets derive from targets
    with the same names. Were the attribute not set, the second read of it
    would raise [AttributeError]. *)
Theorem find_classes_mapping (class_to_idx : option (gmap string Z))
    (dirs : list string) :
  NoDup dirs →
  ∃ classes d,
    ImageFolder_find_classes class_to_idx dirs = Ok (classes, d) ∧
    StronglySorted String.le classes ∧
    classes ≡ₚ dirs ∧
    (∀ m, class_to_idx = Some m → d = m) ∧
    (class_to_idx = None →
       d = class_index None (classes_of dirs) ∧
       ∀ i c, classes !! i = Some c → d !! c = Some (Z.of_nat i)) ∧
    find_classes None dirs = Raise AttributeError.
Proof.
  intros Hnd. unfold ImageFolder_find_classes, find_classes.
  destruct class_to_idx as [m|]; do 2 eexists; (split; [done|]);
    (split; [apply sorted_Sorted|]); (split; [apply sorted_Permutation|]).
  - split; [by intros ? [= ->]|]. split; [done|done].
  - split; [done|]. split; [|done]. intros _. simpl.
    unfold classes_of. rewrite (unique_NoDup dirs Hnd). split; [done|].
    intros i c Hi. apply enumerate_dict_lookup; [|done].
    by rewrite sorted_Permutation.
Qed.

Lemma find_classes_mapping_witness :
  ImageFolder_find_classes None ["normal"; "covid"; "opacity"]
  = Ok (["covid"; "normal"; "opacity"],
        enumerate_dict ["covid"; "normal"; "opacity"]).
Proof.
  destruct (find_classes_mapping None ["normal"; "covid"; "opacity"])
    as (classes & d & Hfind & _).
  - repeat constructor; set_solver.
  - rewrite Hfind. vm_compute in Hfind. by injection Hfind as <- <-.
Defined.

(** ** DataLoaderChain: the stored length *)

Section chain_calls.
Context {A : Type}.
Implicit Types self : DataLoaderChain A.

Lemma after_call_declared_total (c : Call A) self :
  declared_total self → declared_total (after_call c self).
Proof.
  intros Hself. destruct c as [[elems|elems]| | | |]; simpl; try done.
  unfold declared_total. simpl.
  change (λ l : Loader A, Z.of_nat (loader_len l))
    with (Z.of_nat ∘ @loader_len A).
  by rewrite (list_fmap_compose (@loader_len A) Z.of_nat), foldl_add_of_nat.
Qed.

End chain_calls.

(** ** DataLoaderChain: order and number of draws *)

Lemma sublist_full {A} (l1 l2 : list A) :
  l1 `sublist_of` l2 → (length l2 ≤ length l1)%nat → l1 = l2.
Proof.
  induction 1 as [|x l1 l2 Hsub IH|x l1 l2 Hsub IH]; simpl; intros Hlen.
  - done.
  - f_equal. apply IH. lia.
  - apply sublist_length in Hsub. lia.
Qed.

Section iteration_order.
Context {A : Type}.
Implicit Types st : IterState A.
Implicit Types self : DataLoaderChain A.

(** What a live iterator still holds is yielded in its order. *)
Lemma iter_loop_sublist fuel rng k st ys o :
  live st → iter_loop fuel rng k st = Some (ys, o) →
  ∀ s, s ∈ available st → s `sublist_of` ys.
Proof.
  revert k st ys o. induction fuel as [|fuel IH]; intros k st ys o Hlive;
    [done|].
  simpl. pose proof (C := iter_step_live (rng k) st Hlive).
  destruct C as (i & it & Hit & ->).
  pose proof (lookup_lt_Some _ _ _ Hit) as Hi.
  destruct Hlive as [Hlen Hne]. destruct it as [|x rest].
  - destruct (Z.eqb_spec (len_available st - 1) 0) as [Hlast|Hmore].
    + intros [= <- <-] s Hs.
      destruct (available st) as [|it1 [|it2 l]] eqn:Hav; simpl in *; try lia.
      destruct i; [|simpl in *; lia]. injection Hit as ->.
      apply list_elem_of_singleton in Hs as ->. constructor.
    + intros Hrun s [j Hj]%list_elem_of_lookup.
      destruct (decide (j = i)) as [->|Hji].
      { rewrite Hit in Hj. injection Hj as <-. apply sublist_nil_l. }
      eapply (IH _ (mkIter (delete i (available st)) (len_available st - 1)));
        [|exact Hrun|].
      * split; simpl.
        -- rewrite length_delete by eauto. lia.
        -- intros Hnil. apply (f_equal length) in Hnil.
           rewrite length_delete in Hnil by eauto. simpl in Hnil. lia.
      * simpl. apply list_elem_of_lookup.
        destruct (decide (j < i)%nat).
        -- exists j. by rewrite list_lookup_delete_lt.
        -- exists (pred j). rewrite list_lookup_delete_ge by lia.
           by replace (S (pred j)) with j by lia.
  - destruct (iter_loop fuel rng (S k) _) as [[ys' o']|] eqn:Hrun; [|done].
    simpl. intros [= <- <-] s [j Hj]%list_elem_of_lookup.
    assert (live (mkIter (<[i := rest]> (available st)) (len_available st)))
      as Hlive'.
    { split; simpl; [by rewrite length_insert|].
      intros Hnil. apply (f_equal length) in Hnil.
      rewrite length_insert in Hnil. simpl in Hnil. lia. }
    destruct (decide (j = i)) as [->|Hji].
    + rewrite Hit in Hj. injection Hj as <-. apply sublist_skip.
      apply (IH _ _ _ _ Hlive' Hrun). simpl.
      apply list_elem_of_lookup. exists i. by apply list_lookup_insert_eq.
    + apply sublist_cons. apply (IH _ _ _ _ Hlive' Hrun). simpl.
      apply list_elem_of_lookup. exists j.
      by rewrite list_lookup_insert_ne.
Qed.

(** With less fuel than items and live iterators, the loop is still
    running. *)
Lemma iter_loop_needs_fuel fuel rng k st :
  live st →
  (fuel < length (concat (available st)) + length (available st))%nat →
  iter_loop fuel rng k st = None.
Proof.
  revert k st. induction fuel as [|fuel IH]; intros k st Hlive Hfuel; [done|].
  simpl. destruct (iter_step_live (rng k) st Hlive) as (i & it & Hit & ->).
  pose proof (lookup_lt_Some _ _ _ Hit) as Hi.
  destruct Hlive as [Hlen Hne]. destruct it as [|x rest].
  - destruct (Z.eqb_spec (len_available st - 1) 0) as [Hlast|Hmore].
    + destruct (available st) as [|it1 [|it2 l]] eqn:Hav; simpl in *; try lia.
      destruct i; [|simpl in *; lia]. injection Hit as ->. simpl in *. lia.
    + apply IH.
      * split; simpl.
        -- rewrite length_delete by eauto. lia.
        -- intros Hnil. apply (f_equal length) in Hnil.
           rewrite length_delete in Hnil by eauto. simpl in Hnil. lia.
      * simpl. rewrite concat_delete_nil by done.
        rewrite length_delete by eauto. lia.
  - rewrite IH; [done| |].
    + split; simpl; [by rewrite length_insert|].
      intros Hnil. apply (f_equal length) in Hnil.
      rewrite length_insert in Hnil. simpl in Hnil. lia.
    + simpl. rewrite length_insert.
      pose proof (concat_insert_head _ _ _ _ Hit) as Hperm.
      apply Permutation_length in Hperm. simpl in Hperm. lia.
Qed.
End iteration_order.

Section iteration_theorems.
Context {A : Type}.
Implicit Types self : DataLoaderChain A.

(** X13. One run over a chain of one source at least yields the items of every
    source in the order of the source: what a source holds is a subsequence
    of what the run yields. A chain of a single source yields the items of
    the source, as they are, whatever the draws. *)
Theorem chain_iter_keeps_source_order (loaders : list (Loader A))
    (rng : nat → nat) (fuel : nat) :
  loaders ≠ [] →
  let self := (DataLoaderChain_init loaders).2 in
  (iter_fuel self ≤ fuel)%nat →
  ∃ ys, chain_iter fuel rng self = (Some (ys, Returned), self) ∧
    (∀ l, l ∈ loaders → loader_items l `sublist_of` ys) ∧
    (∀ l, loaders = [l] → ys = loader_items l).
Proof.
  intros Hne self Hfuel.
  assert (live (iter_start self)) as Hlive by (by apply iter_start_live).
  destruct (iter_loop_returns fuel rng 0 (iter_start self) Hlive)
    as (ys & Hrun & Hperm).
  { unfold iter_fuel in Hfuel. simpl in *. by rewrite length_fmap. }
  exists ys. split; [unfold chain_iter; by rewrite Hrun|].
  assert (∀ l, l ∈ loaders → loader_items l `sublist_of` ys) as Hsub.
  { intros l Hl. apply (iter_loop_sublist _ _ _ _ _ _ Hlive Hrun). simpl.
    apply list_elem_of_fmap. eauto. }
  split; [done|]. intros l ->. symmetry. apply sublist_full.
  - apply Hsub. by left.
  - apply Permutation_length in Hperm. simpl in Hperm.
    rewrite app_nil_r in Hperm. lia.
Qed.

(** X14. The number of draws of a run is the number of items plus the number of
    sources: every item costs one draw and every source one more, the draw
    that finds it exhausted. With fewer turns the generator has not
    returned; with that many it has. *)
Theorem chain_iter_number_of_draws (loaders : list (Loader A))
    (rng : nat → nat) (fuel : nat) :
  loaders ≠ [] →
  let self := (DataLoaderChain_init loaders).2 in
  iter_fuel self
    = (sum_list (length ∘ loader_items <$> loaders) + length loaders)%nat ∧
  ((fuel < iter_fuel self)%nat → (chain_iter fuel rng self).1 = None) ∧
  ((iter_fuel self ≤ fuel)%nat →
     ∃ ys, (chain_iter fuel rng self).1 = Some (ys, Returned)).
Proof.
  intros Hne self.
  assert (live (iter_start self)) as Hlive by (by apply iter_start_live).
  split; [|split].
  - unfold iter_fuel. simpl. by rewrite length_concat, <- list_fmap_compose.
  - intros Hfuel. simpl. apply iter_loop_needs_fuel; [done|].
    unfold iter_fuel in Hfuel. simpl in *. by rewrite length_fmap.
  - intros Hfuel.
    destruct (iter_loop_returns fuel rng 0 (iter_start self) Hlive)
      as (ys & Hrun & _); [|by eauto].
    unfold iter_fuel in Hfuel. simpl in *. by rewrite length_fmap.
Qed.

End iteration_theorems.

Lemma chain_iter_keeps_source_order_witness :
  ∃ ys,
    chain_iter 7 (λ k, (k * k)%nat)
      (DataLoaderChain_init [mkLoader 3 [1; 2; 3]; mkLoader 2 [4; 5]]).2
    = (Some (ys, Returned),
       (DataLoaderChain_init [mkLoader 3 [1; 2; 3]; mkLoader 2 [4; 5]]).2) ∧
    [1; 2; 3] `sublist_of` ys ∧ [4; 5] `sublist_of` ys.
Proof.
  destruct (chain_iter_keeps_source_order
              [mkLoader 3 [1; 2; 3]; mkLoader 2 [4; 5]] (λ k, (k * k)%nat) 7)
    as (ys & Hrun & Hsub & _); [discriminate | vm_compute; lia |].
  exists ys. split; [exact Hrun|]. split.
  - apply (Hsub (mkLoader 3 [1; 2; 3])). left.
  - apply (Hsub (mkLoader 2 [4; 5])). right. left.
Defined.

Lemma chain_iter_number_of_draws_witness :
  (chain_iter 6 (λ k, k)
     (DataLoaderChain_init [mkLoader 3 [1; 2; 3]; mkLoader 2 [4; 5]]).2).1
  = None.
Proof.
  destruct (chain_iter_number_of_draws
              [mkLoader 3 [1; 2; 3]; mkLoader 2 [4; 5]] (λ k, k) 6)
    as (_ & Hless & _); [discriminate|].
  apply Hless. vm_compute. lia.
Defined.

(** ** Loaders *)

Lemma row_major_row {Px} (l : list Px) (off w : nat) :
  (off + w ≤ length l)%nat →
  (seq 0 w ≫= λ j, option_list (l !! (off + j)%nat)) = take w (drop off l).
Proof.
  induction w as [|w IH]; intros Hlen; [done|].
  rewrite seq_S, bind_app, IH by lia. simpl.
  destruct (lookup_lt_is_Some_2 l (off + w)) as [x Hx]; [lia|].
  rewrite Hx. simpl. symmetry. apply take_S_r.
  by rewrite lookup_drop.
Qed.

Lemma row_major_rows {Px} (l : list Px) (h w : nat) :
  (h * w ≤ length l)%nat →
  (seq 0 h ≫= λ i, seq 0 w ≫= λ j, option_list (l !! (i * w + j)%nat))
  = take (h * w) l.
Proof.
  induction h as [|h IH]; intros Hlen; [done|].
  rewrite seq_S, bind_app, IH by lia. simpl.
  rewrite row_major_row by lia. rewrite app_nil_r, take_take_drop.
  f_equal. lia.
Qed.

Section loader_facts.
Context {Px : Type} {io : ImageIO Px}.
Implicit Types arr : NDArray Px.

(** The channel axis never fails: a two-dimensional array is stacked into
    three axes before it is transposed. *)
Lemma channel_last_Ok arr :
  ∃ out, channel_last arr = Ok out ∧ ndim out ≠ 2%nat ∧
    (ndim arr ≠ 2%nat → out = arr) ∧
    (∀ h w, shape arr = [h; w] → length (elems arr) = (h * w)%nat →
            out = mkArray [h; w; 1%nat] (elems arr)).
Proof.
  unfold channel_last. case_bool_decide as Hdim.
  - unfold ndim in Hdim. destruct arr as [[|h [|w [|? ?]]] data];
      simpl in Hdim; try lia.
    unfold transpose_120, np_stack1. simpl. eexists. split; [done|].
    split; [done|]. split; [done|]. intros h' w' [= <- <-] Hlen. f_equal.
    transitivity (seq 0 h ≫= λ i, seq 0 w ≫= λ j,
                    option_list (data !! (i * w + j)%nat)).
    + apply list_bind_ext; [|done]. intros i.
      apply list_bind_ext; [|done]. intros j.
      by rewrite app_nil_r.
    + rewrite row_major_rows by (simpl in Hlen; lia).
      apply take_ge. simpl in Hlen. lia.
  - exists arr. split; [done|]. split; [done|]. split; [done|].
    intros h w Hshape _. unfold ndim in Hdim. by rewrite Hshape in Hdim.
Qed.

(** X16. Whatever goes wrong in a loader comes out as [OSError], and a loader
    fails only when its decoder does; no path makes [default_loader] raise
    anything else. *)
Theorem loaders_raise_OSError (path : string) :
  (∀ e, pil_loader path = Raise e → e = OSError) ∧
  (∀ e, dicom_loader path = Raise e → e = OSError) ∧
  (∀ e, default_loader path = Raise e → e = OSError) ∧
  (pil_loader path = Raise OSError ↔ ∃ e, read_image_L path = Raise e) ∧
  (dicom_loader path = Raise OSError ↔
     ∃ e, read_dicom_pixels path = Raise e).
Proof.
  assert (∀ (m : result (NDArray Px)) e,
            except_OSError (arr ← m; channel_last arr) = Raise e →
                 e = OSError) as Hexc.
  { intros m e. destruct m as [arr|e']; simpl; [|by intros [= <-]].
    destruct (channel_last_Ok arr) as (out & -> & _). done. }
  assert (∀ m : result (NDArray Px),
            except_OSError (arr ← m; channel_last arr) = Raise OSError ↔
               ∃ e, m = Raise e) as Hiff.
  { intros m. destruct m as [arr|e']; simpl.
    - destruct (channel_last_Ok arr) as (out & -> & _). simpl.
      split; [done | by intros [? [=]]].
    - split; [eauto | done]. }
  unfold default_loader, pil_loader, dicom_loader.
  split; [apply Hexc|]. split; [apply Hexc|]. split.
  - intros e. case_bool_decide; apply Hexc.
  - split; apply Hiff.
Qed.

(** X17. A loaded array has never two axes: a decoded array of shape (h, w)
    comes back with shape (h, w, 1) and the same elements in the same
    order, and any other array comes back as it was decoded. *)
Theorem loaders_channel_axis (path : string) :
  (∀ out, pil_loader path = Ok out ∨ dicom_loader path = Ok out ∨
          default_loader path = Ok out → ndim out ≠ 2%nat) ∧
  (∀ arr, read_image_L path = Ok arr →
     (ndim arr ≠ 2%nat → pil_loader path = Ok arr) ∧
     (∀ h w, shape arr = [h; w] → length (elems arr) = (h * w)%nat →
        pil_loader path = Ok (mkArray [h; w; 1%nat] (elems arr)))) ∧
  (∀ arr, read_dicom_pixels path = Ok arr →
     (ndim arr ≠ 2%nat → dicom_loader path = Ok arr) ∧
     (∀ h w, shape arr = [h; w] → length (elems arr) = (h * w)%nat →
        dicom_loader path = Ok (mkArray [h; w; 1%nat] (elems arr)))).
Proof.
  assert (∀ (m : result (NDArray Px)) out,
            except_OSError (arr ← m; channel_last arr) = Ok out →
                   ndim out ≠ 2%nat) as Hdim.
  { intros m out. destruct m as [arr|e]; simpl; [|done].
    destruct (channel_last_Ok arr) as (out' & -> & Hout & _). simpl.
    by intros [= <-]. }
  assert (∀ (m : result (NDArray Px)) arr, m = Ok arr →
            (ndim arr ≠ 2%nat →
               except_OSError (arr ← m; channel_last arr) = Ok arr) ∧
            (∀ h w, shape arr = [h; w] → length (elems arr) = (h * w)%nat →
               except_OSError (arr ← m; channel_last arr)
               = Ok (mkArray [h; w; 1%nat] (elems arr)))) as Hshape.
  { intros m arr ->. simpl.
    destruct (channel_last_Ok arr) as (out & -> & _ & Hsame & Hnew). simpl.
    split.
    - intros Hn. by rewrite (Hsame Hn).
    - intros h w Hs Hl. by rewrite (Hnew h w Hs Hl). }
  unfold default_loader, pil_loader, dicom_loader.
  split; [|split].
  - intros out [Hout | [Hout | Hout]]; [by eapply Hdim..|].
    revert Hout. case_bool_decide; apply Hdim.
  - intros arr. apply Hshape.
  - intros arr. apply Hshape.
Qed.
End loader_facts.

(** A decoder of one image of 2 x 3 pixels, and of nothing else. *)
Lemma loaders_channel_axis_witness :
  pil_loader (io := {| read_image_L := λ path,
                         if bool_decide (path = "x.png")
                         then Ok (mkArray [2; 3]%nat [1; 2; 3; 4; 5; 6])
                         else Raise ValueError;
                       read_dicom_pixels := λ _, Raise ValueError;
                       splitext_ext := λ _, ".png";
                       str_lower := id |}) "x.png"
  = Ok (mkArray [2; 3; 1]%nat [1; 2; 3; 4; 5; 6]).
Proof.
  destruct (loaders_channel_axis
              (io := {| read_image_L := λ path,
                          if bool_decide (path = "x.png")
                          then Ok (mkArray [2; 3]%nat [1; 2; 3; 4; 5; 6])
                          else Raise ValueError;
                        read_dicom_pixels := λ _, Raise ValueError;
                        splitext_ext := λ _, ".png";
                        str_lower := id |}) "x.png") as (_ & Hpil & _).
  destruct (Hpil (mkArray [2; 3]%nat [1; 2; 3; 4; 5; 6]) eq_refl) as [_ Hhw].
  apply (Hhw 2%nat 3%nat); reflexivity.
Defined.

Lemma loaders_raise_OSError_witness :
  default_loader (io := {| read_image_L := λ _, Raise ValueError;
                           read_dicom_pixels := λ _, @Raise (NDArray Z) KeyError;
                           splitext_ext := λ _, ".DCM";
                           str_lower := λ _, ".dcm" |}) "scan.DCM"
  = Raise OSError.
Proof.
  destruct (loaders_raise_OSError
              (io := {| read_image_L := λ _, Raise ValueError;
                        read_dicom_pixels := λ _, @Raise (NDArray Z) KeyError;
                        splitext_ext := λ _, ".DCM";
                        str_lower := λ _, ".dcm" |}) "scan.DCM")
    as (_ & _ & _ & _ & Hdcm).
  apply Hdcm. by exists KeyError.
Defined.

(** ** Integer box columns *)

Lemma int64_any_ne_self (boxes : list (Box Z)) : any_ne_self boxes = false.
Proof.
  unfold any_ne_self. induction boxes as [|b boxes IH]; [done|].
  cbn [existsb]. rewrite IH. unfold row_ne_self.
  by rewrite !int64_no_nan.
Qed.

(** X18. Over integer box columns no box is ever dropped: without
    transform, the call for an id with a row is the conversion of the label
    column followed by the sample that holds one converted box for every
    row of the id: it raises what that conversion raises, or returns all
    the boxes. *)
Theorem int64_boxes_kept {Image : Type} (self : ImageBboxWithPandas Image Z)
    (frame_index : list Z) (index : Z) image_id image :
  py_index (bb_ids self) index = Ok image_id →
  bb_loader self image_id = Ok image →
  bb_transforms self = None →
  group (bb_samples self) image_id ≠ [] →
  let rows := group (bb_samples self) image_id in
  bb_getitem self frame_index index
    = (labels ← torch_tensor_int
                  (LabelSeries
                     (group_index frame_index (bb_samples self) image_id)
                     (row_target <$> rows));
       Ok (mkSample image labels
             (Boxes (convert_boxes (row_bbox <$> rows))))) ∧
  length (convert_boxes (row_bbox <$> rows)) = length rows.
Proof.
  intros Hid Himg Htr Hrows rows. split.
  - rewrite (bb_getitem_no_transform self frame_index index image_id image)
      by done.
    by rewrite int64_any_ne_self.
  - unfold convert_boxes. by rewrite !length_fmap.
Qed.

Lemma int64_boxes_kept_witness :
  bb_getitem
    {| bb_samples := [mkRow "a.png" 0 (mkBox 10 20 5 8);
                      mkRow "a.png" 1 (mkBox 1 2 3 4)];
       bb_ids := ["a.png"];
       bb_class_to_idx := enumerate_dict ["cat"; "dog"];
       bb_num_classes := 2;
       bb_transforms := None;
       bb_loader := λ path, Ok path |} [0; 1] 0
  = Ok (mkSample "a.png" [0; 1] (Boxes [mkBox 10 20 15 28; mkBox 1 2 4 6])).
Proof.
  destruct (int64_boxes_kept
    {| bb_samples := [mkRow "a.png" 0 (mkBox 10 20 5 8);
                      mkRow "a.png" 1 (mkBox 1 2 3 4)];
       bb_ids := ["a.png"];
       bb_class_to_idx := enumerate_dict ["cat"; "dog"];
       bb_num_classes := 2;
       bb_transforms := None;
       bb_loader := λ path, Ok path |} [0; 1] 0 "a.png" "a.png")
    as [Hcall _]; [reflexivity | reflexivity | reflexivity | discriminate |].
  rewrite Hcall. reflexivity.
Defined.

(** ** Groups with a NaN *)

(** X19. A group with a NaN coordinate in one of its rows: the whole box
    array is dropped from the dictionary before the transform sees it, and
    the label column of the group is kept. With no transform, or with one
    that makes no box out of none and keeps the number of labels, every
    sample the call returns has one label for every row of the group and,
    for boxes, the stack of that many empty placeholders. *)
Theorem nan_group_placeholders {Image C : Type} `{DtypeLaws C}
    (self : ImageBboxWithPandas Image C) frame_index index image_id image r :
  py_index (bb_ids self) index = Ok image_id →
  bb_loader self image_id = Ok image →
  r ∈ group (bb_samples self) image_id →
  row_ne_self (row_bbox r) = true →
  let rows := group (bb_samples self) image_id in
  bb_package self frame_index index
    = Ok (mkPackage image []
            (LabelSeries (group_index frame_index (bb_samples self) image_id)
                         (row_target <$> rows))) ∧
  (keeps_empty (bb_transforms self) →
   ∀ sample, bb_getitem self frame_index index = Ok sample →
     s_boxes sample = EmptyStack (length rows) ∧
     length (s_labels sample) = length rows).
Proof.
  intros Hid Himg Hr Hnan rows.
  pose proof (bb_package_nan self frame_index index image_id image r
                Hid Himg Hr Hnan) as Hpk.
  split; [done|]. intros Hkeep sample. unfold bb_getitem. rewrite Hpk.
  assert (0 < length rows)%nat as Hlen.
  { unfold rows. destruct (group _ _); [by apply elem_of_nil in Hr|].
    simpl. lia. }
  assert (∀ q : Package Image C,
            pk_bboxes q = [] → labels_len (pk_labels q) = length rows →
            (labels ← torch_tensor_int (pk_labels q);
             bboxes ← (if bool_decide (length (pk_bboxes q) = 0%nat)
                       then torch_stack_empty (labels_len (pk_labels q))
                       else Ok (Boxes (pk_bboxes q)));
             Ok (mkSample (pk_image q) labels bboxes)) = Ok sample →
            s_boxes sample = EmptyStack (length rows) ∧
            length (s_labels sample) = length rows) as Hrest.
  { intros q Hq Hlabels.
    destruct (torch_tensor_int (pk_labels q)) as [labels|e] eqn:Htensor;
      simpl; [|done].
    apply torch_tensor_int_values in Htensor. rewrite Hq, Hlabels. simpl.
    destruct (length rows) as [|n] eqn:Hn; [lia|]. simpl.
    intros [= <-]. simpl. split; [done|].
    rewrite Htensor. exact Hlabels. }
  destruct (bb_transforms self) as [t|]; simpl in *;
    fold (group (bb_samples self) image_id); fold rows.
  - destruct (Hkeep (mkPackage image []
                       (LabelSeries
                          (group_index frame_index (bb_samples self) image_id)
                          (row_target <$> rows))) eq_refl)
      as (q & -> & Hq & Hlabels). simpl.
    apply Hrest; [done|]. rewrite Hlabels. unfold labels_len. simpl.
    apply length_fmap.
  - apply (Hrest (mkPackage image []
                    (LabelSeries
                       (group_index frame_index (bb_samples self) image_id)
                       (row_target <$> rows)))); [done|].
    unfold labels_len. simpl. apply length_fmap.
Qed.

(** The rows [[1,1,2,2],[NaN,1,2,2]] as the first two of a table. *)
Lemma nan_group_placeholders_witness :
  ∃ sample, bb_getitem dataset_poisoned [0; 1] 0 = Ok sample ∧
    s_boxes sample = EmptyStack 2 ∧ length (s_labels sample) = 2%nat.
Proof.
  eexists. split; [reflexivity|].
  destruct (nan_group_placeholders dataset_poisoned [0; 1] 0 "b.png" "b.png"
              (mkRow "b.png" 1 (mkBox nan 1 2 2)%float))
    as [_ Hshape]; [reflexivity | reflexivity | | reflexivity |].
  - unfold group. apply list_elem_of_filter. split; [reflexivity|].
    simpl. right. left.
  - apply (Hshape I). reflexivity.
Defined.
